(** * openapi-codegen: the local expansion engine ([local.js])

    A shallow embedding of [tpl] and [main] of [local.js], and the
    properties of the expansion engine proved about it.

    The engine threads one mutable world through a chain of callbacks:
    the configuration object, the model handed back by the adaptor, the
    filesystem, and the process-wide Handlebars registry.  The embedding
    keeps that world in an explicit state and runs the body of [main] in a
    small state-and-exception monad; a thrown JavaScript exception stops
    the run and leaves the world as it was at the throw.

    What [local.js] imports is not defined here: the adaptor, the
    lambdas and the template engine are fields of an environment [Env];
    node's [path] and [fs] and the packages [mkdirp] and [rimraf] are
    modelled on a filesystem of files and directories.  The text sent to
    [console.log] is not kept; an expression evaluated for it that can
    throw is evaluated. *)

From Stdlib Require Import String Ascii List ZArith Bool Lia.
From stdpp Require Import base option list gmap strings fin_maps pretty.

Local Open Scope string_scope.
Local Open Scope list_scope.

(** ** JavaScript values *)

(** The values that flow through the engine.  Objects are finite maps of
    own enumerable properties; functions (the lambdas) are opaque and are
    told apart by a name. *)
#[warnings="-register-all"]
Inductive value : Type :=
| VUndefined
| VNull
| VBool (b : bool)
| VNum (n : Z)
| VStr (s : string)
| VFun (name : string)
| VArr (items : list value)
| VObj (fields : gmap string value).

Abbreviation obj := (gmap string value).

(** [if (v)]: JavaScript truthiness. *)
Definition truthy (v : value) : bool :=
  match v with
  | VUndefined | VNull => false
  | VBool b => b
  | VNum n => negb (Z.eqb n 0)
  | VStr s => negb (String.eqb s "")
  | VFun _ | VArr _ | VObj _ => true
  end.

(** Truthiness of an optional string field, such as [config.touch]:
    absent and the empty string are both falsy. *)
Definition truthy_str (o : option string) : bool :=
  match o with
  | Some s => negb (String.eqb s "")
  | None => false
  end.

(** Truthiness of an optional boolean field, such as [config.apache]. *)
Definition truthy_flag (o : option bool) : bool :=
  match o with
  | Some b => b
  | None => false
  end.

(** [v[k]] for a property that may be missing. *)
Definition field (o : obj) (k : string) : value :=
  default VUndefined (o !! k).

Definition chars (s : string) : list value :=
  (fun c => VStr (String c EmptyString)) <$> list_ascii_of_string s.

Definition indexed (l : list value) : obj :=
  list_to_map (imap (fun i v => (pretty i, v)) l).

(** The own enumerable properties of a value, as [Object.assign] and
    [for ... in] see them: the fields of an object, the indices of an
    array or of a string, nothing for the other primitives and for
    functions. *)
Definition own_fields (v : value) : obj :=
  match v with
  | VObj o => o
  | VArr l => indexed l
  | VStr s => indexed (chars s)
  | _ => ∅
  end.

(** [Object.assign(target, ...sources)]: every source in turn overwrites
    the target field by field. *)
Definition object_assign (target : obj) (sources : list value) : obj :=
  foldl (fun t s => own_fields s ∪ t) target sources.

(** [clone] is reftools' [circularClone]: a structural copy that keeps
    functions by identity.  On immutable values the copy is the value. *)
Definition clone (v : value) : value := v.

(** ** Exceptions *)

Inductive error : Type :=
| TypeError (msg : string)
| IOError (code : string) (path : list string)
| HandlebarsException (msg : string).

Inductive outcome (A : Type) : Type :=
| Ok (a : A)
| Throw (e : error).
Arguments Ok {A} a.
Arguments Throw {A} e.

(** [v.k] : reading a property throws on [undefined] and [null]. *)
Definition get_prop (v : value) (k : string) : outcome value :=
  match v with
  | VUndefined | VNull =>
      Throw (TypeError ("Cannot read properties of undefined (reading '" +:+ k +:+ "')"))
  | _ => Ok (field (own_fields v) k)
  end.

(** [for (let x of v)] : arrays and strings are iterable. *)
Definition iterate (v : value) : outcome (list value) :=
  match v with
  | VArr l => Ok l
  | VStr s => Ok (chars s)
  | _ => Throw (TypeError "value is not iterable")
  end.

(** ** Paths: node's POSIX [path] module *)

Definition slash : ascii := "/"%char.

Fixpoint split_on (sep : ascii) (s : string) : list string :=
  match s with
  | EmptyString => [EmptyString]
  | String c r =>
      if Ascii.eqb c sep then EmptyString :: split_on sep r
      else match split_on sep r with
           | [] => [String c EmptyString]
           | h :: t => String c h :: t
           end
  end.

(** [normalizeString]: drop empty and [.] segments, resolve [..]; above
    the start of a relative path the [..] is kept. *)
Fixpoint norm_segs (allowAbove : bool) (stack : list string) (segs : list string)
  : list string :=
  match segs with
  | [] => rev stack
  | seg :: rest =>
      if String.eqb seg "" || String.eqb seg "." then norm_segs allowAbove stack rest
      else if String.eqb seg ".." then
        match stack with
        | top :: stack' =>
            if String.eqb top ".." then norm_segs allowAbove (seg :: stack) rest
            else norm_segs allowAbove stack' rest
        | [] =>
            if allowAbove then norm_segs allowAbove [seg] rest
            else norm_segs allowAbove [] rest
        end
      else norm_segs allowAbove (seg :: stack) rest
  end.

Definition starts_with_slash (s : string) : bool :=
  match s with
  | String c _ => Ascii.eqb c slash
  | EmptyString => false
  end.

Definition ends_with_slash (s : string) : bool :=
  match last (list_ascii_of_string s) with
  | Some c => Ascii.eqb c slash
  | None => false
  end.

(** [path.normalize] *)
Definition path_normalize (p : string) : string :=
  if String.eqb p "" then "."
  else
    let isAbsolute := starts_with_slash p in
    let trailing := ends_with_slash p in
    let body := String.concat "/" (norm_segs (negb isAbsolute) [] (split_on slash p)) in
    if String.eqb body "" then
      if isAbsolute then "/" else if trailing then "./" else "."
    else
      let body := if trailing then body +:+ "/" else body in
      if isAbsolute then "/" +:+ body else body.

(** [path.join(...args)] *)
Definition path_join (args : list string) : string :=
  match filter (fun a => a ≠ "") args with
  | [] => "."
  | parts => path_normalize (String.concat "/" parts)
  end.

Fixpoint drop_while {A} (f : A -> bool) (l : list A) : list A :=
  match l with
  | x :: r => if f x then drop_while f r else l
  | [] => []
  end.

(** [path.dirname] *)
Definition path_dirname (p : string) : string :=
  match list_ascii_of_string p with
  | [] => "."
  | c0 :: rest =>
      let hasRoot := Ascii.eqb c0 slash in
      let back := drop_while (fun c => negb (Ascii.eqb c slash))
                    (drop_while (fun c => Ascii.eqb c slash) (rev rest)) in
      match back with
      | [] => if hasRoot then "/" else "."
      | _ :: before =>
          if hasRoot && match before with [] => true | _ => false end then "//"
          else string_of_list_ascii (c0 :: rev before)
      end
  end.

(** A location on disk: the segments from the root.  [fs_path cwd p] is
    where the operating system finds the path string [p] for a process
    whose working directory is [cwd]. *)
Abbreviation path := (list string).

Definition fs_path (cwd : path) (p : string) : path :=
  if starts_with_slash p then norm_segs false [] (split_on slash p)
  else norm_segs false [] (cwd ++ split_on slash p).

(** ** The filesystem *)

(** Regular files with their content, and the directories besides the
    root. *)
Record FS : Type := mkFS {
  files : gmap path string;
  dirs : gset path;
}.

Definition is_dir (p : path) (fs : FS) : bool :=
  bool_decide (p = [] ∨ p ∈ dirs fs).

Definition parent (p : path) : path := removelast p.

(** [p] lies strictly below the directory [d]. *)
Definition inside (d p : path) : Prop := d `prefix_of` p ∧ d ≠ p.

(** [fs.readFileSync(p, 'utf8')] *)
Definition readFileSync (p : path) (fs : FS) : outcome string :=
  match files fs !! p with
  | Some content => Ok content
  | None => Throw (IOError (if is_dir p fs then "EISDIR" else "ENOENT") p)
  end.

(** [fs.existsSync(p)]: true for files and for directories. *)
Definition existsSync (p : path) (fs : FS) : bool :=
  bool_decide (is_Some (files fs !! p)) || is_dir p fs.

(** [fs.writeFileSync(p, content, 'utf8')]: creates or replaces the file;
    the directory that holds it must exist. *)
Definition writeFileSync (p : path) (content : string) (fs : FS) : outcome FS :=
  if is_dir p fs then Throw (IOError "EISDIR" p)
  else if is_dir (parent p) fs then Ok (mkFS (<[p := content]> (files fs)) (dirs fs))
  else Throw (IOError "ENOENT" p).

(** The directory [p] and the directories above it, the root left out. *)
Fixpoint ancestors (p : path) : list path :=
  match p with
  | [] => []
  | seg :: rest => [seg] :: ((fun q => seg :: q) <$> ancestors rest)
  end.

(** Modelled from the spec: [mkdirp] is an external package; "create
    [outputRoot/subdirectory] (idempotent, succeeds if already present)",
    "nested as needed".  It fails, changing nothing, when a regular file
    is in the way. *)
Definition mkdirp (p : path) (fs : FS) : outcome FS :=
  if bool_decide (Exists (fun q => is_Some (files fs !! q)) (ancestors p))
  then Throw (IOError "EEXIST" p)
  else Ok (mkFS (files fs) (list_to_set (ancestors p) ∪ dirs fs)).

(** Modelled from the spec: [rimraf] is an external package, called on the
    pattern [<dir>/*]; "recursively delete every file inside that
    subdirectory (the subdirectory itself survives)". *)
Definition rimraf_children (d : path) (fs : FS) : FS :=
  mkFS (filter (fun kv => ¬ inside d kv.1) (files fs))
       (filter (fun q => ¬ inside d q) (dirs fs)).

(** ** Configuration *)

(** One entry of [config.transformations]; [tx_template] is the field the
    engine fills in from [tx_input]. *)
Record Transformation : Type := mkTransformation {
  tx_input : option string;
  tx_output : string;
  tx_template : option string;
}.

(** One entry of [perApi], [perPath], [perModel] or [perOperation]. *)
Record FanOutSpec : Type := mkFanOutSpec {
  fo_input : string;
  fo_output : string;
  fo_defaults : option obj;
}.

Record Config : Type := mkConfig {
  outputDir : option string;
  templateDir : option string;
  defaults : obj;
  generator : value;
  partials : list (string * string);
  transformations : list Transformation;
  directories : option (list string);
  touch : option string;
  apache : option bool;
  perApi : option (list FanOutSpec);
  perPath : option (list FanOutSpec);
  perModel : option (list FanOutSpec);
  perOperation : option (list FanOutSpec);
}.

Definition set_defaults (d : obj) (c : Config) : Config :=
  mkConfig (outputDir c) (templateDir c) d (generator c) (partials c)
    (transformations c) (directories c) (touch c) (apache c)
    (perApi c) (perPath c) (perModel c) (perOperation c).

Definition set_transformations (l : list Transformation) (c : Config) : Config :=
  mkConfig (outputDir c) (templateDir c) (defaults c) (generator c) (partials c)
    l (directories c) (touch c) (apache c)
    (perApi c) (perPath c) (perModel c) (perOperation c).

Definition set_template (content : string) (tx : Transformation) : Transformation :=
  mkTransformation (tx_input tx) (tx_output tx) (Some content).

(** [pa.defaults || {}] *)
Definition spec_defaults (pa : FanOutSpec) : obj := default ∅ (fo_defaults pa).

(** ** The collaborators of [main] *)

(** The process-wide Handlebars registry. *)
Record Registry : Type := mkRegistry {
  helpers : gmap string value;
  partials_reg : gmap string string;
}.

(** What [local.js] imports and does not define.

    - [transform] is [adaptor.transform]: the pair it hands to its
      callback, an error value and the model, the latter absent when the
      adaptor delivers none.
    - [lambdas] is the export of [lambdas.js].
    - [hb_call] is a compiled template applied to a context,
      [Handlebars.compile(src)(ctx)].
    - [hb_render] is the [render] member of a compiled template.  What
      [Handlebars.compile] returns is a plain function and has no such
      member ([None]); engines of the Hogan kind have one.
    - [dirname] is [__dirname] and [cwd] the working directory. *)
Record Env : Type := mkEnv {
  transform : value -> value -> obj -> value * option obj;
  lambdas : obj;
  hb_call : Registry -> string -> value -> outcome string;
  hb_render : option (Registry -> string -> value -> outcome string);
  dirname : string;
  cwd : path;
}.

(** ** The world of one run *)

Record State : Type := mkState {
  st_config : Config;
  st_model : option obj;
  st_fs : FS;
  st_registry : Registry;
  st_written : list (path * string);
  st_callbacks : list (value * value);
}.

Definition with_config (c : Config) (s : State) : State :=
  mkState c (st_model s) (st_fs s) (st_registry s) (st_written s) (st_callbacks s).
Definition with_model (m : option obj) (s : State) : State :=
  mkState (st_config s) m (st_fs s) (st_registry s) (st_written s) (st_callbacks s).
Definition with_fs (fs : FS) (s : State) : State :=
  mkState (st_config s) (st_model s) fs (st_registry s) (st_written s) (st_callbacks s).
Definition with_registry (r : Registry) (s : State) : State :=
  mkState (st_config s) (st_model s) (st_fs s) r (st_written s) (st_callbacks s).
Definition with_written (w : list (path * string)) (s : State) : State :=
  mkState (st_config s) (st_model s) (st_fs s) (st_registry s) w (st_callbacks s).
Definition with_callbacks (c : list (value * value)) (s : State) : State :=
  mkState (st_config s) (st_model s) (st_fs s) (st_registry s) (st_written s) c.

(** ** State and exceptions *)

Definition M (A : Type) : Type := State -> outcome A * State.

Definition ret {A} (a : A) : M A := fun s => (Ok a, s).

Definition bind {A B} (m : M A) (k : A -> M B) : M B :=
  fun s => match m s with
           | (Ok a, s') => k a s'
           | (Throw e, s') => (Throw e, s')
           end.

Definition throw {A} (e : error) : M A := fun s => (Throw e, s).

Definition lift {A} (r : outcome A) : M A := fun s => (r, s).

Definition gets {A} (f : State -> A) : M A := fun s => (Ok (f s), s).

Definition modify (f : State -> State) : M unit := fun s => (Ok tt, f s).

Definition when (b : bool) (m : M unit) : M unit := if b then m else ret tt.

#[global] Instance M_ret : MRet M := @ret.
#[global] Instance M_bind : MBind M := fun A B k m => bind m k.

Fixpoint for_each {A} (l : list A) (body : A -> M unit) : M unit :=
  match l with
  | [] => ret tt
  | x :: rest => body x;; for_each rest body
  end.

(** ** [local.js] *)

Section Engine.

Context (E : Env).

(** [tpl(config, ...segments)]: with a template directory override the
    first segment is dropped; otherwise the built-in tree is used. *)
Definition tpl (templateDir : option string) (segments : list string) : string :=
  if truthy_str templateDir
  then path_join (default "" templateDir :: tail segments)
  else path_join (dirname E :: "templates" :: segments).

Definition at_path (p : string) : path := fs_path (cwd E) p.

(** *** The file functions [ff] and the other effects *)

(** [ff.readFileSync(p, 'utf8')] *)
Definition ff_readFileSync (p : string) : M string :=
  fun s => (readFileSync (at_path p) (st_fs s), s).

(** [ff.createFile(p, content, 'utf8')]; a completed call is recorded in
    [st_written]. *)
Definition ff_createFile (p : string) (content : string) : M unit :=
  fun s => match writeFileSync (at_path p) content (st_fs s) with
           | Ok fs' =>
               (Ok tt, with_written (st_written s ++ [(at_path p, content)]) (with_fs fs' s))
           | Throw e => (Throw e, s)
           end.

(** [ff.mkdirp.sync(p)] *)
Definition ff_mkdirp_sync (p : string) : M unit :=
  fun s => match mkdirp (at_path p) (st_fs s) with
           | Ok fs' => (Ok tt, with_fs fs' s)
           | Throw e => (Throw e, s)
           end.

(** [ff.mkdirp(p, function(){...})]: a failure is handed to the callback,
    which takes no argument and goes on. *)
Definition ff_mkdirp (p : string) : M unit :=
  fun s => match mkdirp (at_path p) (st_fs s) with
           | Ok fs' => (Ok tt, with_fs fs' s)
           | Throw _ => (Ok tt, s)
           end.

(** [ff.rimraf(dir + '/*', function(){...})] *)
Definition ff_rimraf_children (dir : string) : M unit :=
  modify (fun s => with_fs (rimraf_children (at_path dir) (st_fs s)) s).

(** [fs.existsSync(p)] *)
Definition fs_existsSync (p : string) : M bool :=
  gets (fun s => existsSync (at_path p) (st_fs s)).

(** [Handlebars.compile(input)] refuses [undefined]; the compiled template
    is represented by its source. *)
Definition handlebars_compile (input : option string) : M string :=
  match input with
  | Some src => ret src
  | None =>
      throw (HandlebarsException
        "You must pass a string or Handlebars AST to Handlebars.compile. You passed undefined")
  end.

(** [template(ctx)] for a compiled template. *)
Definition call_template (src : string) (ctx : value) : M string :=
  fun s => (hb_call E (st_registry s) src ctx, s).

(** [template.render(ctx)] *)
Definition render_member (src : string) (ctx : value) : M string :=
  match hb_render E with
  | Some r => fun s => (r (st_registry s) src ctx, s)
  | None => throw (TypeError "touchTmp.render is not a function")
  end.

(** [Handlebars.registerHelper] for every own property of [fns]. *)
Definition registerHelpers (fns : obj) : M unit :=
  modify (fun s => with_registry
    (mkRegistry (fns ∪ helpers (st_registry s)) (partials_reg (st_registry s))) s).

(** [Handlebars.registerPartial(name, src)] *)
Definition registerPartial (name src : string) : M unit :=
  modify (fun s => with_registry
    (mkRegistry (helpers (st_registry s)) (<[name := src]> (partials_reg (st_registry s)))) s).

(** The model; using it throws when the adaptor delivered none. *)
Definition get_model : M obj :=
  fun s => match st_model s with
           | Some m => (Ok m, s)
           | None => (Throw (TypeError "Cannot set properties of undefined"), s)
           end.

(** [model[k] = v] *)
Definition set_model_field (k : string) (v : value) : M unit :=
  m ← get_model; modify (with_model (Some (<[k := v]> m))).

(** [Object.keys(lambdas).forEach(key => model[key] = lambdas[key])] *)
Definition attach_lambdas : M unit :=
  m ← get_model; modify (with_model (Some (lambdas E ∪ m))).

Definition get_config : M Config := gets st_config.

(** *** The steps of [main], in source order *)

Section Run.

(** The variables the callbacks of one run close over. *)
Context (outputDir0 subDir configName : string) (verbose : bool) (gen : value).

Definition out_path (name : string) : string :=
  path_join [outputDir0; subDir; name].

(** Lines 41-43. *)
Definition attach_generator : M unit :=
  set_model_field "generator" gen;;
  attach_lambdas.

(** Lines 45-52.  The verbose trace reads [generator.lambdas] without a
    guard; the registration loop is guarded. *)
Definition register_generator_lambdas : M unit :=
  when verbose (_ ← lift (get_prop gen "lambdas"); ret tt);;
  if truthy gen then
    ls ← lift (get_prop gen "lambdas");
    when (truthy ls) (registerHelpers (own_fields ls))
  else ret tt.

(** Lines 53-57. *)
Definition register_partials : M unit :=
  config ← get_config;
  for_each (partials config) (fun '(p, partial) =>
    config ← get_config;
    src ← ff_readFileSync (tpl (templateDir config) [configName; partial]);
    registerPartial p src).

(** Lines 59-67.  [tx] is the entry of [config.transformations] itself, so
    the template is stored in the configuration; [actions] holds the same
    entries. *)
Definition load_template (t : nat) : M unit :=
  config ← get_config;
  match transformations config !! t with
  | Some tx =>
      if truthy_str (tx_input tx) then
        src ← ff_readFileSync (tpl (templateDir config) [configName; default "" (tx_input tx)]);
        modify (fun s => with_config
          (set_transformations (<[t := set_template src tx]> (transformations (st_config s)))
             (st_config s)) s)
      else ret tt
  | None => ret tt
  end.

Definition load_actions : M (list Transformation) :=
  config ← get_config;
  for_each (seq 0 (length (transformations config))) load_template;;
  gets (fun s => transformations (st_config s)).

(** Lines 72-73: make the output subdirectory, then empty it. *)
Definition clean_output : M unit :=
  ff_mkdirp (path_join [outputDir0; subDir]);;
  ff_rimraf_children (path_join [outputDir0; subDir]).

(** Lines 74-78. *)
Definition make_directories : M unit :=
  config ← get_config;
  match directories config with
  | Some ds => for_each ds (fun directory => ff_mkdirp_sync (out_path directory))
  | None => ret tt
  end.

(** Lines 79-86: the whole-output pass. *)
Definition render_action (action : Transformation) : M unit :=
  fnTemplate ← handlebars_compile (Some (tx_output action));
  template ← handlebars_compile (tx_template action);
  model ← get_model;
  filename ← call_template fnTemplate (VObj model);
  content ← call_template template (VObj model);
  ff_createFile (out_path filename) content.

Definition whole_output (actions : list Transformation) : M unit :=
  for_each actions render_action.

(** Lines 87-99: the touch list.  [String.prototype.trim] strips white
    space at both ends (the ASCII white space here). *)
Definition is_space (c : ascii) : bool :=
  let n := nat_of_ascii c in
  (Nat.leb 9 n && Nat.leb n 13) || Nat.eqb n 32.

Definition trim (s : string) : string :=
  string_of_list_ascii
    (rev (drop_while is_space (rev (drop_while is_space (list_ascii_of_string s))))).

Definition CR : ascii := ascii_of_nat 13.
Definition LF : ascii := ascii_of_nat 10.

(** [touchList.split('\r').join('').split('\n')] *)
Definition touch_lines (touchList : string) : list string :=
  split_on LF (String.concat "" (split_on CR touchList)).

Definition touch_file (file : string) : M unit :=
  let file := trim file in
  if negb (String.eqb file "") then
    present ← fs_existsSync (out_path file);
    if negb present then ff_createFile (out_path file) "" else ret tt
  else ret tt.

Definition touch_files : M unit :=
  config ← get_config;
  if truthy_str (touch config) then
    touchTmp ← handlebars_compile (touch config);
    model ← get_model;
    touchList ← render_member touchTmp (VObj model);
    for_each (touch_lines touchList) touch_file
  else ret tt.

(** Lines 100-105: the license, always from the built-in tree
    ([tpl({}, ...)]). *)
Definition license_source (apache_flag : option bool) : string :=
  if truthy_flag apache_flag then tpl None ["_common"; "LICENSE"]
  else tpl None ["_common"; "UNLICENSE"].

Definition write_license : M unit :=
  config ← get_config;
  text ← ff_readFileSync (license_source (apache config));
  ff_createFile (out_path "LICENSE") text.

(** [model.apiInfo.<k>], iterated *)
Definition api_collection (k : string) : M (list value) :=
  model ← get_model;
  coll ← lift (get_prop (field model "apiInfo") k);
  lift (iterate coll).

(** [Object.assign({}, config.defaults, pa.defaults||{}, toplevel, item)] *)
Definition item_context (global : obj) (pa : FanOutSpec) (toplevel : obj) (item : value) : obj :=
  object_assign ∅ [VObj global; VObj (spec_defaults pa); VObj toplevel; item].

(** [clone(model)] with [apiInfo] deleted *)
Definition toplevel_of (model : obj) : obj :=
  delete "apiInfo" (own_fields (clone (VObj model))).

(** Lines 108-121: one file per fan-out spec and API. *)
Definition perApi_item (pa : FanOutSpec) (fnTemplate template : string)
    (toplevel : obj) (api : value) : M unit :=
  config ← get_config;
  let cApi := item_context (defaults config) pa toplevel api in
  filename ← call_template fnTemplate (VObj cApi);
  content ← call_template template (VObj cApi);
  ff_createFile (out_path filename) content.

Definition perApi_spec (toplevel : obj) (pa : FanOutSpec) : M unit :=
  fnTemplate ← handlebars_compile (Some (fo_output pa));
  config ← get_config;
  src ← ff_readFileSync (tpl (templateDir config) [configName; fo_input pa]);
  template ← handlebars_compile (Some src);
  apis ← api_collection "apis";
  for_each apis (perApi_item pa fnTemplate template toplevel).

Definition perApi_pass : M unit :=
  config ← get_config;
  match perApi config with
  | Some specs =>
      model ← get_model;
      for_each specs (perApi_spec (toplevel_of model))
  | None => ret tt
  end.

(** Lines 123-138: as [perApi] over [apiInfo.paths]; the directory of the
    rendered name is made first. *)
Definition perPath_item (pa : FanOutSpec) (fnTemplate template : string)
    (toplevel : obj) (pat : value) : M unit :=
  config ← get_config;
  let cPath := item_context (defaults config) pa toplevel pat in
  filename ← call_template fnTemplate (VObj cPath);
  ff_mkdirp_sync (out_path (path_dirname filename));;
  content ← call_template template (VObj cPath);
  ff_createFile (out_path filename) content.

Definition perPath_spec (toplevel : obj) (pa : FanOutSpec) : M unit :=
  fnTemplate ← handlebars_compile (Some (fo_output pa));
  config ← get_config;
  src ← ff_readFileSync (tpl (templateDir config) [configName; fo_input pa]);
  template ← handlebars_compile (Some src);
  paths ← api_collection "paths";
  for_each paths (perPath_item pa fnTemplate template toplevel).

Definition perPath_pass : M unit :=
  config ← get_config;
  match perPath config with
  | Some specs =>
      model ← get_model;
      for_each specs (perPath_spec (toplevel_of model))
  | None => ret tt
  end.

(** [Object.assign({}, model, pm.defaults||{})] *)
Definition effective_model (item : value) (pm : FanOutSpec) : obj :=
  object_assign ∅ [item; VObj (spec_defaults pm)].

(** Lines 140-154: the item is put, alone, in [outer.models], and the
    templates see [outer]. *)
Definition perModel_item (fnTemplate template : string) (pm : FanOutSpec)
    (item : value) : M unit :=
  set_model_field "models" (VArr [VObj (effective_model item pm)]);;
  outer ← get_model;
  filename ← call_template fnTemplate (VObj outer);
  content ← call_template template (VObj outer);
  ff_createFile (out_path filename) content.

Definition perModel_spec (cModels : value) (pm : FanOutSpec) : M unit :=
  fnTemplate ← handlebars_compile (Some (fo_output pm));
  config ← get_config;
  src ← ff_readFileSync (tpl (templateDir config) [configName; fo_input pm]);
  template ← handlebars_compile (Some src);
  items ← lift (iterate cModels);
  for_each items (perModel_item fnTemplate template pm).

Definition perModel_pass : M unit :=
  config ← get_config;
  match perModel config with
  | Some specs =>
      model ← get_model;
      let cModels := clone (field model "models") in
      for_each specs (perModel_spec cModels)
  | None => ret tt
  end.

(** Lines 156-171: one file per fan-out spec, API and operation. *)
Definition perOperation_item (fnTemplate template : string) (operation : value) : M unit :=
  set_model_field "operations" (VArr [operation]);;
  outer ← get_model;
  filename ← call_template fnTemplate (VObj outer);
  content ← call_template template (VObj outer);
  ff_createFile (out_path filename) content.

Definition perOperation_api (po : FanOutSpec) (api : value) : M unit :=
  operations ← lift (get_prop api "operations");
  let cOperations := clone operations in
  fnTemplate ← handlebars_compile (Some (fo_output po));
  config ← get_config;
  src ← ff_readFileSync (tpl (templateDir config) [configName; fo_input po]);
  template ← handlebars_compile (Some src);
  operation ← lift (get_prop cOperations "operation");
  items ← lift (iterate operation);
  for_each items (perOperation_item fnTemplate template).

Definition perOperation_spec (po : FanOutSpec) : M unit :=
  apis ← api_collection "apis";
  for_each apis (perOperation_api po).

Definition perOperation_pass : M unit :=
  config ← get_config;
  match perOperation config with
  | Some specs => for_each specs perOperation_spec
  | None => ret tt
  end.

(** Line 173. *)
Definition invoke_callback (callback : bool) : M unit :=
  when callback
    (modify (fun s => with_callbacks (st_callbacks s ++ [(VNull, VBool true)]) s)).

(** Lines 74-171: what runs once the output subdirectory is clean. *)
Definition fan_out : M unit :=
  perApi_pass;; perPath_pass;; perModel_pass;; perOperation_pass.

Definition generate (actions : list Transformation) : M unit :=
  make_directories;;
  whole_output actions;;
  touch_files;;
  write_license;;
  fan_out.

(** Lines 41-67: the model is decorated, helpers and partials are
    registered, the templates of the whole-output pass are loaded. *)
Definition prepare : M (list Transformation) :=
  attach_generator;;
  register_generator_lambdas;;
  register_partials;;
  load_actions.

(** Lines 41-175: the callback handed to [adaptor.transform]. *)
Definition on_transformed (callback : bool) : M unit :=
  actions ← prepare;
  clean_output;;
  generate actions;;
  invoke_callback callback.

End Run.

(** Line 33: [config.outputDir || './out/'] *)
Definition output_root (config : Config) : string :=
  if truthy_str (outputDir config) then default "" (outputDir config) else "./out/".

(** Line 35: [config.defaults.configName = configName] *)
Definition named (configName : string) (config : Config) : Config :=
  set_defaults (<["configName" := VStr configName]> (defaults config)) config.

(** Lines 36-39: the generator, [undefined] unless the configuration has
    a truthy one. *)
Definition run_generator (config : Config) : value :=
  if truthy (generator config) then generator config else VUndefined.

(** Line 69: [config.defaults.flat ? '' : configName] *)
Definition sub_dir (configName : string) (config : Config) : string :=
  if truthy (field (defaults config) "flat") then "" else configName.

(** What [adaptor.transform] hands to its callback in this run. *)
Definition transformed (o : value) (config : Config) (configName : string)
  : value * option obj :=
  transform E (run_generator config) o (defaults (named configName config)).

(** [main(o, config, configName, callback)], started on the filesystem
    [fs] with the registry [reg].  The result is how the run ended, and
    the world it left.  The error value of the transform is not looked
    at. *)
Definition initial_state (o : value) (config : Config) (configName : string)
    (fs : FS) (reg : Registry) : State :=
  mkState (named configName config) (transformed o config configName).2 fs reg [] [].

Definition main (o : value) (config : Config) (configName : string) (callback : bool)
    (fs : FS) (reg : Registry) : outcome unit * State :=
  let outputDir0 := output_root config in
  let verbose := truthy (field (defaults config) "verbose") in
  on_transformed outputDir0 (sub_dir configName config) configName verbose
    (run_generator config) callback
    (initial_state o config configName fs reg).

End Engine.

(** ** Properties of runs *)

(** [m] relates every state to the state it leaves, however it ends. *)
Definition preserves {A} (R : relation State) (m : M A) : Prop :=
  ∀ s, R s (m s).2.

(** A projection of the state keeps its value. *)
Definition unchanged {A} (f : State → A) : relation State :=
  fun s s' => f s' = f s.

(** What a run may do to an entry of [config.transformations]: fill in
    the template of an entry that has an input. *)
Definition tx_rel (t t' : Transformation) : Prop :=
  tx_input t' = tx_input t ∧ tx_output t' = tx_output t ∧
  (tx_template t' = tx_template t ∨
   (truthy_str (tx_input t) = true ∧ is_Some (tx_template t'))).

(** What a run may do to the configuration once [main] has stored the
    run name in [defaults]. *)
Definition config_rel (c c' : Config) : Prop :=
  outputDir c' = outputDir c ∧ templateDir c' = templateDir c ∧
  defaults c' = defaults c ∧ generator c' = generator c ∧
  partials c' = partials c ∧ directories c' = directories c ∧
  touch c' = touch c ∧ apache c' = apache c ∧
  perApi c' = perApi c ∧ perPath c' = perPath c ∧
  perModel c' = perModel c ∧ perOperation c' = perOperation c ∧
  Forall2 tx_rel (transformations c) (transformations c').

(** The files of [s'] are those of [s] but for the ones written in
    between, which [st_written] lists, and for the [exempt] ones. *)
Definition frame (exempt : path → Prop) : relation State :=
  fun s s' =>
    ∃ l, st_written s' = st_written s ++ l ∧
         ∀ p, ¬ exempt p → p ∉ l.*1 → files (st_fs s') !! p = files (st_fs s) !! p.

(** The model, once there, stays, with the same [generator]. *)
Definition same_generator : relation State :=
  fun s s' =>
    ∀ m, st_model s = Some m →
         ∃ m', st_model s' = Some m' ∧ m' !! "generator" = m !! "generator".

(** What a step does to the list of callback invocations when it is the
    one that ends with [invoke_callback]. *)
Definition reports (callback : bool) (m : M unit) : Prop :=
  ∀ s, st_callbacks (m s).2 =
       st_callbacks s ++ match (m s).1 with
                         | Ok _ => if callback then [(VNull, VBool true)] else []
                         | Throw _ => []
                         end.


Definition config_kept : relation State :=
  fun s s' => config_rel (st_config s) (st_config s').

(** A directory that is there stays. *)
Definition keeps_dir (d : path) : relation State :=
  fun s s' => is_dir d (st_fs s) = true → is_dir d (st_fs s') = true.

(** The names a touch list asks for: its lines, trimmed, the blank ones
    dropped. *)
Definition touch_names (lines : list string) : list string :=
  filter (fun f => f ≠ "") (trim <$> lines).

(** Where these names are in the output subdirectory. *)
Definition touched (E : Env) (outputDir0 subDir : string) (lines : list string)
  : list path :=
  (fun f => at_path E (out_path outputDir0 subDir f)) <$> touch_names lines.

(** The file a fan-out step emits for a context: the name is the output
    template rendered against it, the content the body template. *)
Definition rendered (E : Env) (reg : Registry) (outputDir0 subDir : string)
    (fnTemplate template : string) (ctx : value) (e : path * string) : Prop :=
  ∃ filename content,
    hb_call E reg fnTemplate ctx = Ok filename ∧
    hb_call E reg template ctx = Ok content ∧
    e = (at_path E (out_path outputDir0 subDir filename), content).

(** The first of the sources, highest priority first, that has the key. *)
Fixpoint first_with (k : string) (sources : list obj) : option value :=
  match sources with
  | [] => None
  | o :: rest => match o !! k with
                 | Some v => Some v
                 | None => first_with k rest
                 end
  end.

(** [model.apiInfo.apis], iterated. *)
Definition apis_of (model : obj) : outcome (list value) :=
  match get_prop (field model "apiInfo") "apis" with
  | Ok coll => iterate coll
  | Throw e => Throw e
  end.

(** [clone(api.operations).operation], iterated. *)
Definition operations_of (api : value) : outcome (list value) :=
  match get_prop api "operations" with
  | Ok operations =>
      match get_prop (clone operations) "operation" with
      | Ok operation => iterate operation
      | Throw e => Throw e
      end
  | Throw e => Throw e
  end.

(** The states of a fan-out pass over the model [model]: the
    configuration and the registry stay, and so does the model but for
    the scratch field [scratch]. *)
Definition pass_state (cfg : Config) (reg : Registry) (model : obj) (scratch : string)
    (s : State) : Prop :=
  st_config s = cfg ∧ st_registry s = reg ∧
  ∃ m, st_model s = Some m ∧ delete scratch m = delete scratch model.

(** The same for a pass that leaves the whole model alone. *)
Definition pass_fixed (cfg : Config) (reg : Registry) (model : obj) (s : State) : Prop :=
  st_config s = cfg ∧ st_registry s = reg ∧ st_model s = Some model.

(** The environment [E] with an adaptor that reports [err] instead of
    what it reported, and delivers the same model. *)
Definition reporting (err : value) (E : Env) : Env :=
  mkEnv (fun g o d => (err, (transform E g o d).2))
        (lambdas E) (hb_call E) (hb_render E) (dirname E) (cwd E).

(** ** More properties of runs *)

(** The files a list of writes leaves, the later write of a path over the
    earlier. *)
Definition written_files (w : list (path * string)) : gmap path string :=
  foldl (fun m e => <[e.1 := e.2]> m) ∅ w.

(** What has been written is on disk. *)
Definition writes_kept : relation State :=
  fun s s' =>
    written_files (st_written s) ⊆ files (st_fs s) →
    written_files (st_written s') ⊆ files (st_fs s').

(** Directories are only added. *)
Definition dirs_grow : relation State :=
  fun s s' => dirs (st_fs s) ⊆ dirs (st_fs s').

(** Names registered with Handlebars stay registered. *)
Definition registry_grows : relation State :=
  fun s s' =>
    dom (helpers (st_registry s)) ⊆ dom (helpers (st_registry s')) ∧
    dom (partials_reg (st_registry s)) ⊆ dom (partials_reg (st_registry s')).

(** The model, once there, stays, with the same field [k]. *)
Definition keeps_field (k : string) : relation State :=
  fun s s' =>
    ∀ m, st_model s = Some m → ∃ m', st_model s' = Some m' ∧ m' !! k = m !! k.

(** An entry of [config.transformations] once its template is loaded from
    the filesystem [fs]: the text of the input file when the entry has an
    input, and the entry as it was otherwise. *)
Definition loaded (E : Env) (templateDir0 : option string) (configName : string)
    (fs : FS) (t t' : Transformation) : Prop :=
  if truthy_str (tx_input t)
  then ∃ src, files fs !! at_path E (tpl E templateDir0 [configName; default "" (tx_input t)])
                = Some src ∧ t' = set_template src t
  else t' = t.

(** The file the perPath pass emits for a context, and the directory it
    makes for it, in the filesystem [fs]. *)
Definition rendered_in_dir (E : Env) (reg : Registry) (outputDir0 subDir : string)
    (fnTemplate template : string) (ctx : value) (fs : FS) (e : path * string) : Prop :=
  ∃ filename content,
    hb_call E reg fnTemplate ctx = Ok filename ∧
    hb_call E reg template ctx = Ok content ∧
    e = (at_path E (out_path outputDir0 subDir filename), content) ∧
    is_dir (at_path E (out_path outputDir0 subDir (path_dirname filename))) fs = true.

(** [model.apiInfo.paths], iterated. *)
Definition paths_of (model : obj) : outcome (list value) :=
  match get_prop (field model "apiInfo") "paths" with
  | Ok coll => iterate coll
  | Throw e => Throw e
  end.

(** The helpers a generator brings: the own properties of its [lambdas],
    when the generator and its [lambdas] are truthy. *)
Definition generator_helpers (gen : value) : obj :=
  if truthy gen then
    match get_prop gen "lambdas" with
    | Ok ls => if truthy ls then own_fields ls else ∅
    | Throw _ => ∅
    end
  else ∅.

(** ** A small engine and project to run the model on *)

Module Bench.

(** A template of the form [{{a.b.c}}] renders the string found in the
    context along that path (a number is an index into a list), and
    nothing when there is none; any other template renders as itself. *)
Definition mustache (src : string) : option (list string) :=
  match list_ascii_of_string src with
  | "{"%char :: "{"%char :: rest =>
      match rev rest with
      | "}"%char :: "}"%char :: body =>
          Some (split_on "."%char (string_of_list_ascii (rev body)))
      | _ => None
      end
  | _ => None
  end.

Definition toy_call (reg : Registry) (src : string) (ctx : value) : outcome string :=
  match mustache src with
  | Some keys =>
      match foldl (fun v k => field (own_fields v) k) ctx keys with
      | VStr s => Ok s
      | _ => Ok ""
      end
  | None => Ok src
  end.

Definition operation (name : string) : value := VObj {["name" := VStr name]}.

Definition pets : value :=
  VObj (list_to_map
    [("name", VStr "pets"); ("x", VStr "item");
     ("operations", VObj {["operation" := VArr [operation "getPet"; operation "addPet"]]})]).

Definition store : value :=
  VObj (list_to_map
    [("name", VStr "store");
     ("operations", VObj {["operation" := VArr [operation "buy"]]})]).

(** A schema model called [Pet]. *)
Definition pet : value := VObj {["name" := VStr "Pet"]}.

Definition petstore : obj :=
  list_to_map
    [("apiInfo", VObj (list_to_map [("apis", VArr [pets; store]); ("paths", VArr [])]));
     ("models", VArr [pet]);
     ("x", VStr "top")].

(** The adaptor succeeds, and Handlebars' compiled templates have no
    [render] member. *)
Definition env : Env :=
  mkEnv (fun _ _ _ => (VNull, Some petstore)) {["lower" := VFun "lower"]}
        toy_call None "/app" ["home"].

(** The adaptor fails and delivers no model. *)
Definition env_failing : Env :=
  mkEnv (fun _ _ _ => (VStr "boom", None)) ∅ toy_call None "/app" ["home"].

Definition disk : FS :=
  mkFS (list_to_map
          [(["app"; "templates"; "_common"; "LICENSE"], "Apache License");
           (["app"; "templates"; "_common"; "UNLICENSE"], "This is free and unencumbered software");
           (["app"; "templates"; "go"; "api.tpl"], "{{name}}");
           (["app"; "templates"; "go"; "model.tpl"], "{{models.0.name}}");
           (["app"; "templates"; "go"; "op.tpl"], "{{operations.0.name}}");
           (["app"; "templates"; "go"; "readme.tpl"], "README");
           (["home"; "out"; "go"; "junk.txt"], "junk");
           (["home"; "out"; "go"; "b.txt"], "keep")])
       (list_to_set
          [["app"]; ["app"; "templates"]; ["app"; "templates"; "go"];
           ["app"; "templates"; "_common"]; ["home"]; ["home"; "out"];
           ["home"; "out"; "go"]]).

Definition registry : Registry := mkRegistry ∅ ∅.

Definition api_spec : FanOutSpec :=
  mkFanOutSpec "api.tpl" "{{name}}" (Some {["x" := VStr "spec"]}).

(** A perModel spec whose defaults also have a [name]. *)
Definition model_spec : FanOutSpec :=
  mkFanOutSpec "model.tpl" "{{models.0.name}}" (Some {["name" := VStr "Default"]}).

Definition operation_spec : FanOutSpec := mkFanOutSpec "op.tpl" "{{operations.0.name}}" None.

Definition config : Config :=
  mkConfig None None {["x" := VStr "global"]} VUndefined []
    [mkTransformation (Some "readme.tpl") "README.md" None]
    (Some ["docs"]) None (Some true)
    (Some [api_spec])
    None
    (Some [model_spec])
    (Some [operation_spec]).

(** The world when the fan-out passes start on an empty output
    subdirectory. *)
Definition state : State :=
  mkState config (Some petstore) disk registry [] [].

Definition set_touch (t : option string) (c : Config) : Config :=
  mkConfig (outputDir c) (templateDir c) (defaults c) (generator c) (partials c)
    (transformations c) (directories c) t (apache c)
    (perApi c) (perPath c) (perModel c) (perOperation c).

(** Two names, one a line. *)
Definition touch_list : string := "a.txt" +:+ String LF "b.txt".

(** The project with a whole-output entry that writes [b.txt]. *)
Definition config_touch : Config :=
  set_touch (Some "{{list}}")
    (set_transformations
       [mkTransformation (Some "readme.tpl") "b.txt" None] config).

Definition petstore_touch : obj := <["list" := VStr touch_list]> petstore.

Definition env_touch : Env :=
  mkEnv (fun _ _ _ => (VNull, Some petstore_touch)) {["lower" := VFun "lower"]}
        toy_call (Some toy_call) "/app" ["home"].

(** The same project run with Handlebars. *)
Definition env_touch_handlebars : Env :=
  mkEnv (fun _ _ _ => (VNull, Some petstore_touch)) {["lower" := VFun "lower"]}
        toy_call None "/app" ["home"].

End Bench.

(** ** A project with paths *)

Module BenchPaths.

Definition list_pets : value :=
  VObj (list_to_map [("file", VStr "pets/list.md"); ("title", VStr "List pets")]).

Definition buy : value :=
  VObj (list_to_map [("file", VStr "store/orders/buy.md"); ("title", VStr "Buy")]).

Definition model : obj :=
  list_to_map
    [("apiInfo", VObj (list_to_map [("apis", VArr []); ("paths", VArr [list_pets; buy])]));
     ("models", VArr [])].

Definition path_spec : FanOutSpec := mkFanOutSpec "path.tpl" "{{file}}" None.

Definition config : Config :=
  mkConfig None None ∅ VUndefined [] [] None None None
    None (Some [path_spec]) None None.

Definition disk : FS :=
  mkFS (list_to_map
          [(["app"; "templates"; "_common"; "UNLICENSE"], "This is free and unencumbered software");
           (["app"; "templates"; "md"; "path.tpl"], "{{title}}")])
       (list_to_set
          [["app"]; ["app"; "templates"]; ["app"; "templates"; "md"];
           ["app"; "templates"; "_common"]; ["home"]; ["home"; "out"];
           ["home"; "out"; "md"]]).

Definition state : State :=
  mkState config (Some model) disk Bench.registry [] [].

End BenchPaths.

(** ** A project with a generator and a partial *)

Module BenchPartials.

Definition generator : value :=
  VObj {["lambdas" := VObj {["upper" := VFun "upper"]}]}.

Definition config : Config :=
  mkConfig None None ∅ generator [("header", "header.tpl")] [] None None None
    None None None None.

(** The same with a partial whose file is not there. *)
Definition config_missing : Config :=
  mkConfig None None ∅ generator [("footer", "footer.tpl")] [] None None None
    None None None None.

Definition disk : FS :=
  mkFS (list_to_map
          [(["app"; "templates"; "_common"; "UNLICENSE"], "This is free and unencumbered software");
           (["app"; "templates"; "md"; "header.tpl"], "# {{title}}");
           (["home"; "out"; "md"; "old.md"], "old")])
       (list_to_set
          [["app"]; ["app"; "templates"]; ["app"; "templates"; "md"];
           ["app"; "templates"; "_common"]; ["home"]; ["home"; "out"];
           ["home"; "out"; "md"]]).

Definition state : State :=
  mkState config (Some Bench.petstore) disk Bench.registry [] [].

End BenchPartials.

(** ** A project with nothing to render *)

Module BenchBare.

Definition config : Config :=
  mkConfig None None ∅ VUndefined [] [] None None None None None None None.

End BenchBare.

(** * Proofs *)

(** ** The monad *)

Lemma bind_unfold {A B} (m : M A) (k : A → M B) s :
  (m ≫= k) s = match m s with
               | (Ok a, s') => k a s'
               | (Throw e, s') => (Throw e, s')
               end.
Proof. reflexivity. Qed.

Lemma bind_Ok {A B} (m : M A) (k : A → M B) s b s' :
  (m ≫= k) s = (Ok b, s') →
  ∃ a s1, m s = (Ok a, s1) ∧ k a s1 = (Ok b, s').
Proof.
  rewrite bind_unfold. destruct (m s) as [[a|e] s1]; [eauto | discriminate].
Qed.

Lemma bind_assoc {A B C} (m : M A) (f : A → M B) (g : B → M C) s :
  ((m ≫= f) ≫= g) s = (m ≫= (fun a => f a ≫= g)) s.
Proof. rewrite !bind_unfold. by destruct (m s) as [[a|e] s1]. Qed.

Lemma for_each_cons_Ok {A} (body : A → M unit) x l s s' :
  for_each (x :: l) body s = (Ok tt, s') →
  ∃ s1, body x s = (Ok tt, s1) ∧ for_each l body s1 = (Ok tt, s').
Proof.
  simpl. intros H. apply bind_Ok in H as ([] & s1 & H1 & H2). eauto.
Qed.

(** ** Relations kept by a run *)

Section Preserves.

Context (R : relation State) `{!PreOrder R}.

Lemma preserves_ret {A} (a : A) : preserves R (mret a).
Proof. intros s. simpl. reflexivity. Qed.

Lemma preserves_throw {A} e : preserves R (throw (A:=A) e).
Proof. intros s. simpl. reflexivity. Qed.

Lemma preserves_lift {A} (r : outcome A) : preserves R (lift r).
Proof. intros s. simpl. reflexivity. Qed.

Lemma preserves_gets {A} (f : State → A) : preserves R (gets f).
Proof. intros s. simpl. reflexivity. Qed.

Lemma preserves_bind {A B} (m : M A) (k : A → M B) :
  preserves R m → (∀ a, preserves R (k a)) → preserves R (m ≫= k).
Proof.
  intros Hm Hk s. rewrite bind_unfold. specialize (Hm s).
  destruct (m s) as [[a|e] s1]; simpl in *; [|done].
  etrans; [exact Hm | apply Hk].
Qed.

Lemma preserves_for_each {A} (l : list A) (body : A → M unit) :
  (∀ x, preserves R (body x)) → preserves R (for_each l body).
Proof.
  intros Hb. induction l as [|x l IH]; simpl.
  - apply preserves_ret.
  - apply preserves_bind; auto.
Qed.

Lemma preserves_when b (m : M unit) : preserves R m → preserves R (when b m).
Proof. destruct b; simpl; [done | intros _; apply preserves_ret]. Qed.

Lemma preserves_modify (f : State → State) :
  (∀ s, R s (f s)) → preserves R (modify f).
Proof. intros H s. apply H. Qed.

End Preserves.

(** The effects that leave the state alone, and the three that change the
    filesystem. *)
Section Effects.

Context (E : Env) (R : relation State) `{!PreOrder R}.

Lemma preserves_readFileSync p : preserves R (ff_readFileSync E p).
Proof. intros s. simpl. reflexivity. Qed.

Lemma preserves_call_template src ctx : preserves R (call_template E src ctx).
Proof. intros s. simpl. reflexivity. Qed.

Lemma preserves_render_member src ctx : preserves R (render_member E src ctx).
Proof. intros s. unfold render_member. destruct (hb_render E); simpl; reflexivity. Qed.

Lemma preserves_get_model : preserves R get_model.
Proof. intros s. unfold get_model. destruct (st_model s); simpl; reflexivity. Qed.

Lemma preserves_compile input : preserves R (handlebars_compile input).
Proof. intros s. destruct input; simpl; reflexivity. Qed.

Lemma preserves_createFile p c :
  (∀ s fs', writeFileSync (at_path E p) c (st_fs s) = Ok fs' →
            R s (with_written (st_written s ++ [(at_path E p, c)]) (with_fs fs' s))) →
  preserves R (ff_createFile E p c).
Proof.
  intros H s. unfold ff_createFile.
  destruct (writeFileSync _ _ _) eqn:Hw; simpl; [by apply H | reflexivity].
Qed.

Lemma preserves_mkdirp_sync p :
  (∀ s fs', mkdirp (at_path E p) (st_fs s) = Ok fs' → R s (with_fs fs' s)) →
  preserves R (ff_mkdirp_sync E p).
Proof.
  intros H s. unfold ff_mkdirp_sync.
  destruct (mkdirp _ _) eqn:Hw; simpl; [by apply H | reflexivity].
Qed.

Lemma preserves_mkdirp p :
  (∀ s fs', mkdirp (at_path E p) (st_fs s) = Ok fs' → R s (with_fs fs' s)) →
  preserves R (ff_mkdirp E p).
Proof.
  intros H s. unfold ff_mkdirp.
  destruct (mkdirp _ _) eqn:Hw; simpl; [by apply H | reflexivity].
Qed.

End Effects.

(** Walk a step of the engine down to its effects; [leaf] settles what a
    state update does to the relation. *)
Ltac preorder_goal :=
  try match goal with |- PreOrder _ => solve [typeclasses eauto] end.

Ltac unfold_steps :=
  progress unfold get_config, fs_existsSync, set_model_field, attach_lambdas,
    registerHelpers, registerPartial, ff_rimraf_children,
    attach_generator, register_generator_lambdas, register_partials,
    load_actions, clean_output, make_directories, render_action, whole_output,
    touch_file, touch_files, write_license, api_collection,
    perApi_item, perApi_spec, perApi_pass, perPath_item, perPath_spec, perPath_pass,
    perModel_item, perModel_spec, perModel_pass,
    perOperation_item, perOperation_api, perOperation_spec, perOperation_pass,
    fan_out, generate, prepare.

Tactic Notation "preserves_step" tactic3(leaf) :=
  lazymatch goal with
  | |- preserves _ (mret _) => apply preserves_ret; preorder_goal
  | |- preserves _ (ret _) => apply preserves_ret; preorder_goal
  | |- preserves _ (throw _) => apply preserves_throw; preorder_goal
  | |- preserves _ (lift _) => apply preserves_lift; preorder_goal
  | |- preserves _ (gets _) => apply preserves_gets; preorder_goal
  | |- preserves _ (ff_readFileSync _ _) => apply preserves_readFileSync; preorder_goal
  | |- preserves _ (call_template _ _ _) => apply preserves_call_template; preorder_goal
  | |- preserves _ (render_member _ _ _) => apply preserves_render_member; preorder_goal
  | |- preserves _ get_model => apply preserves_get_model; preorder_goal
  | |- preserves _ (handlebars_compile _) => apply preserves_compile; preorder_goal
  | |- preserves _ (mbind _ _) => apply preserves_bind; preorder_goal; [| intros ?]
  | |- preserves _ (for_each _ _) => apply preserves_for_each; preorder_goal; intros ?
  | |- preserves _ (when _ _) => apply preserves_when; preorder_goal
  | |- preserves _ (modify _) => apply preserves_modify; intros ?; simpl; leaf
  | |- preserves _ (ff_createFile _ _ _) =>
      apply preserves_createFile; preorder_goal; intros ? ? ?; simpl; leaf
  | |- preserves _ (ff_mkdirp_sync _ _) =>
      apply preserves_mkdirp_sync; preorder_goal; intros ? ? ?; simpl; leaf
  | |- preserves _ (ff_mkdirp _ _) =>
      apply preserves_mkdirp; preorder_goal; intros ? ? ?; simpl; leaf
  | |- preserves _ (match ?x with _ => _ end) => destruct x
  | |- preserves _ _ => first [ solve [auto with preserves] | unfold_steps ]
  end.

Tactic Notation "preserves_walk" tactic3(leaf) := repeat (preserves_step leaf).

Create HintDb preserves discriminated.

(** ** The completion callback *)

#[local] Instance unchanged_preorder {A} (f : State → A) : PreOrder (unchanged f).
Proof.
  split; [intros s; reflexivity|].
  intros s1 s2 s3 H1 H2; unfold unchanged in *; congruence.
Qed.

Lemma load_template_unchanged {A} (f : State → A) E configName t :
  (∀ c s, f (with_config c s) = f s) →
  preserves (unchanged f) (load_template E configName t).
Proof. intros Hf. unfold load_template. preserves_walk (apply Hf). Qed.

#[local] Hint Extern 1 (preserves (unchanged _) (load_template _ _ _)) =>
  apply load_template_unchanged; reflexivity : preserves.

Lemma reports_invoke callback : reports callback (invoke_callback callback).
Proof. intros s. destruct callback; simpl; [done | by rewrite app_nil_r]. Qed.

Lemma reports_bind {A} callback (m : M A) (k : A → M unit) :
  preserves (unchanged st_callbacks) m → (∀ a, reports callback (k a)) →
  reports callback (m ≫= k).
Proof.
  intros Hm Hk s. rewrite bind_unfold. specialize (Hm s). unfold unchanged in Hm.
  destruct (m s) as [[a|e] s1]; simpl in *.
  - rewrite <- Hm. apply Hk.
  - by rewrite Hm, app_nil_r.
Qed.

Lemma on_transformed_reports E outputDir0 subDir configName verbose gen callback :
  reports callback (on_transformed E outputDir0 subDir configName verbose gen callback).
Proof.
  unfold on_transformed.
  repeat (apply reports_bind; [preserves_walk reflexivity | intros ?]).
  apply reports_invoke.
Qed.

(** C2, the part that holds of every run: the callback is invoked with
    [(null, true)], once, by the runs that complete, and by no other. *)
Lemma main_callbacks E o config configName callback fs reg :
  st_callbacks (main E o config configName callback fs reg).2 =
  match (main E o config configName callback fs reg).1 with
  | Ok _ => if callback then [(VNull, VBool true)] else []
  | Throw _ => []
  end.
Proof. unfold main. by rewrite on_transformed_reports. Qed.

(** When the adaptor hands back no model the first statement of the
    callback throws. *)
Lemma main_without_model E o config configName callback fs reg :
  (transformed E o config configName).2 = None →
  main E o config configName callback fs reg =
  (Throw (TypeError "Cannot set properties of undefined"),
   mkState (named configName config) None fs reg [] []).
Proof. intros H. unfold main, initial_state. rewrite H. reflexivity. Qed.

(** The run does not look at the error value of the transform. *)
Lemma main_ignores_transform_error E err o config configName callback fs reg :
  main (reporting err E) o config configName callback fs reg =
  main E o config configName callback fs reg.
Proof. reflexivity. Qed.

(** C2 (as amended).  A run whose transform hands back no model throws a
    [TypeError] at the first statement of the callback: nothing has been
    registered, no directory prepared, no file written, and the completion
    callback is not invoked.  In every run the completion callback is
    invoked by a run that completes, once, with [(null, true)], and never
    otherwise: no error reaches it.  The error value the transform hands
    over is not looked at: with any other error value, and the same
    model, the run is the same. *)
Theorem callback_contract E o config configName callback fs reg :
  ((transformed E o config configName).2 = None →
   (main E o config configName callback fs reg).1 =
     Throw (TypeError "Cannot set properties of undefined") ∧
   st_fs (main E o config configName callback fs reg).2 = fs ∧
   st_registry (main E o config configName callback fs reg).2 = reg ∧
   st_written (main E o config configName callback fs reg).2 = [] ∧
   st_callbacks (main E o config configName callback fs reg).2 = []) ∧
  st_callbacks (main E o config configName callback fs reg).2 =
    match (main E o config configName callback fs reg).1 with
    | Ok _ => if callback then [(VNull, VBool true)] else []
    | Throw _ => []
    end ∧
  ∀ err, main (reporting err E) o config configName callback fs reg =
         main E o config configName callback fs reg.
Proof.
  split; [|split; [apply main_callbacks | intros; apply main_ignores_transform_error]].
  intros H. by rewrite (main_without_model _ _ _ _ _ _ _ H).
Qed.

Lemma callback_contract_witness :
  (transformed Bench.env_failing VNull Bench.config "go").2 = None ∧
  (main Bench.env_failing VNull Bench.config "go" true Bench.disk Bench.registry).1 =
    Throw (TypeError "Cannot set properties of undefined").
Proof.
  split; [reflexivity|].
  apply (proj1 (callback_contract Bench.env_failing VNull Bench.config "go" true
                  Bench.disk Bench.registry)).
  reflexivity.
Defined.

(** C2 as stated fails: the transform reports the error ["boom"], and the
    completion callback is not invoked at all, let alone with an error. *)
Lemma transform_error_not_reported :
  (transformed Bench.env_failing VNull Bench.config "go").1 = VStr "boom" ∧
  ¬ (∃ e ok, (e, ok) ∈ st_callbacks
       (main Bench.env_failing VNull Bench.config "go" true Bench.disk Bench.registry).2
     ∧ e ≠ VNull).
Proof.
  split; [reflexivity|].
  intros (e & ok & Hin & _).
  rewrite main_without_model in Hin by reflexivity. simpl in Hin.
  by apply elem_of_nil in Hin.
Qed.

(** ** The verbose trace without a generator *)

(** C10.  With [defaults.verbose] truthy and no generator in the
    configuration, once the transform has delivered a model the run
    throws the [TypeError] of reading [lambdas] of [undefined]; no partial
    has been registered, no directory prepared, no file written, and the
    completion callback is not invoked. *)
Theorem verbose_without_generator_throws E o config configName callback fs reg m :
  truthy (field (defaults config) "verbose") = true →
  truthy (generator config) = false →
  (transformed E o config configName).2 = Some m →
  (main E o config configName callback fs reg).1 =
    Throw (TypeError "Cannot read properties of undefined (reading 'lambdas')") ∧
  st_registry (main E o config configName callback fs reg).2 = reg ∧
  st_fs (main E o config configName callback fs reg).2 = fs ∧
  st_written (main E o config configName callback fs reg).2 = [] ∧
  st_callbacks (main E o config configName callback fs reg).2 = [].
Proof.
  intros Hv Hg Hm. unfold main, initial_state, on_transformed, prepare, run_generator.
  rewrite Hv, Hg, Hm. done.
Qed.

Lemma verbose_without_generator_throws_witness :
  (main Bench.env VNull (set_defaults {["verbose" := VBool true]} Bench.config) "go" true
        Bench.disk Bench.registry).1 =
    Throw (TypeError "Cannot read properties of undefined (reading 'lambdas')").
Proof.
  apply (verbose_without_generator_throws Bench.env VNull
           (set_defaults {["verbose" := VBool true]} Bench.config) "go" true
           Bench.disk Bench.registry Bench.petstore); reflexivity.
Defined.

(** A transform that reports an error and still delivers the model: the
    run goes on as if nothing had happened, and reports success. *)
Example transform_error_swallowed :
  (transformed (reporting (VStr "boom") Bench.env) VNull Bench.config "go").1 = VStr "boom" ∧
  (main (reporting (VStr "boom") Bench.env) VNull Bench.config "go" true
        Bench.disk Bench.registry).1 = Ok tt ∧
  st_callbacks (main (reporting (VStr "boom") Bench.env) VNull Bench.config "go" true
                  Bench.disk Bench.registry).2 = [(VNull, VBool true)].
Proof. repeat split; vm_compute; reflexivity. Qed.

(** ** The generator on the model *)

#[local] Instance same_generator_preorder : PreOrder same_generator.
Proof.
  split.
  - intros s m Hm. eauto.
  - intros s1 s2 s3 H12 H23 m Hm.
    destruct (H12 m Hm) as (m2 & Hm2 & Hg2).
    destruct (H23 m2 Hm2) as (m3 & Hm3 & Hg3).
    exists m3. split; [done | congruence].
Qed.

Lemma same_generator_set_model_field k v :
  k ≠ "generator" → preserves same_generator (set_model_field k v).
Proof.
  intros Hk s m Hm. unfold set_model_field, get_model.
  rewrite bind_unfold, Hm. simpl. eexists. split; [done|].
  by rewrite lookup_insert_ne.
Qed.

#[local] Hint Extern 1 (preserves same_generator (set_model_field _ _)) =>
  apply same_generator_set_model_field; discriminate : preserves.

Lemma same_generator_load_template E configName t :
  preserves same_generator (load_template E configName t).
Proof. unfold load_template. preserves_walk (intros ? ?; eauto). Qed.
#[local] Hint Resolve same_generator_load_template : preserves.

Lemma after_attach_same_generator E outputDir0 subDir configName verbose gen callback :
  preserves same_generator
    (actions ← (register_generator_lambdas verbose gen;;
                register_partials E configName;;
                load_actions E configName);
     clean_output E outputDir0 subDir;;
     generate E outputDir0 subDir configName actions;;
     invoke_callback callback).
Proof. unfold invoke_callback. preserves_walk (intros ? ?; eauto). Qed.




(** ** The configuration *)

Lemma tx_rel_refl t : tx_rel t t.
Proof. unfold tx_rel. auto. Qed.

Lemma tx_rel_trans t1 t2 t3 : tx_rel t1 t2 → tx_rel t2 t3 → tx_rel t1 t3.
Proof.
  unfold tx_rel. intros (Hi1 & Ho1 & H1) (Hi2 & Ho2 & H2).
  split; [congruence|]. split; [congruence|].
  destruct H2 as [H2|[H2 H2']].
  - destruct H1 as [H1|[H1 H1']]; [left; congruence | right; split; [done|]].
    by rewrite H2.
  - right. split; [congruence | done].
Qed.

#[local] Instance config_rel_preorder : PreOrder config_rel.
Proof.
  split.
  - intros c. unfold config_rel. repeat split.
    induction (transformations c); constructor; auto using tx_rel_refl.
  - intros c1 c2 c3 H12 H23. unfold config_rel in *.
    destruct H12 as (?&?&?&?&?&?&?&?&?&?&?&?&F12).
    destruct H23 as (?&?&?&?&?&?&?&?&?&?&?&?&F23).
    repeat split; try congruence.
    clear -F12 F23. revert F23. generalize (transformations c3).
    induction F12 as [|a b l1 l2 Hab _ IH]; intros l3 F23; inversion F23; subst;
      constructor; eauto using tx_rel_trans.
Qed.

#[local] Instance config_kept_preorder : PreOrder config_kept.
Proof.
  split.
  - intros s. unfold config_kept. reflexivity.
  - intros s1 s2 s3 H12 H23. unfold config_kept in *. by etrans.
Qed.

Lemma config_kept_same s s' : st_config s' = st_config s → config_kept s s'.
Proof. intros H. unfold config_kept. rewrite H. reflexivity. Qed.

Lemma Forall2_tx_rel_insert l t tx src :
  l !! t = Some tx → truthy_str (tx_input tx) = true →
  Forall2 tx_rel l (<[t := set_template src tx]> l).
Proof.
  revert t. induction l as [|a l IH]; intros [|t] Ht Hin; simpl in *; try done.
  - injection Ht as ->. constructor.
    + unfold tx_rel. simpl. eauto.
    + clear. induction l; constructor; auto using tx_rel_refl.
  - constructor; [apply tx_rel_refl | by apply IH].
Qed.

Lemma config_kept_load_template E configName t :
  preserves config_kept (load_template E configName t).
Proof.
  intros s. unfold load_template, get_config. rewrite bind_unfold. simpl.
  destruct (transformations (st_config s) !! t) as [tx|] eqn:Ht; [|reflexivity].
  destruct (truthy_str (tx_input tx)) eqn:Hin; [|reflexivity].
  rewrite bind_unfold. unfold ff_readFileSync.
  destruct (readFileSync _ _) as [src|e]; simpl; [|reflexivity].
  unfold config_kept, config_rel. simpl. repeat split.
  by apply Forall2_tx_rel_insert.
Qed.
#[local] Hint Resolve config_kept_load_template : preserves.

Lemma on_transformed_config E outputDir0 subDir configName verbose gen callback :
  preserves config_kept (on_transformed E outputDir0 subDir configName verbose gen callback).
Proof.
  unfold on_transformed, invoke_callback.
  preserves_walk (by apply config_kept_same).
Qed.

(** C7 (as amended).  A run changes the configuration object in two
    places and nowhere else: [defaults.configName] is set to the run name,
    and an entry of [transformations] that has an input may get its
    [template] field filled in.  Every other field of the configuration,
    every other key of [defaults], and the [input] and [output] of every
    transformation are as they were, however the run ends. *)
Theorem configuration_changes E o config configName callback fs reg :
  config_rel (named configName config)
    (st_config (main E o config configName callback fs reg).2) ∧
  defaults (st_config (main E o config configName callback fs reg).2) =
    <["configName" := VStr configName]> (defaults config).
Proof.
  pose proof (on_transformed_config E (output_root config) (sub_dir configName config)
                configName (truthy (field (defaults config) "verbose"))
                (run_generator config) callback
                (initial_state E o config configName fs reg)) as H.
  unfold config_kept in H. simpl in H. split; [exact H|].
  destruct H as (_ & _ & Hd & _). exact Hd.
Qed.

(** C7 as stated fails: the run leaves [configName] in the [defaults] of
    the configuration it was given. *)
Lemma configuration_is_mutated :
  st_config (main Bench.env VNull Bench.config "go" true Bench.disk Bench.registry).2
    ≠ Bench.config.
Proof.
  intros H. apply (f_equal (fun c => defaults c !! "configName")) in H.
  vm_compute in H. discriminate.
Qed.

(** ** The filesystem between two points of a run *)

Lemma writeFileSync_Ok p c fs fs' :
  writeFileSync p c fs = Ok fs' → fs' = mkFS (<[p := c]> (files fs)) (dirs fs).
Proof.
  unfold writeFileSync. destruct (is_dir p fs); [done|].
  destruct (is_dir (parent p) fs); [|done]. by intros [= <-].
Qed.

Lemma mkdirp_Ok p fs fs' :
  mkdirp p fs = Ok fs' →
  fs' = mkFS (files fs) (list_to_set (ancestors p) ∪ dirs fs).
Proof. unfold mkdirp. case_bool_decide; [done|]. by intros [= <-]. Qed.

Lemma rimraf_children_inside d fs p :
  inside d p → files (rimraf_children d fs) !! p = None.
Proof.
  intros Hin. unfold rimraf_children. simpl.
  apply map_lookup_filter_None. right. intros c _. simpl. tauto.
Qed.

Lemma rimraf_children_outside d fs p :
  ¬ inside d p → files (rimraf_children d fs) !! p = files fs !! p.
Proof.
  intros Hout. unfold rimraf_children. simpl.
  apply option_eq. intros c. rewrite map_lookup_filter_Some. simpl. tauto.
Qed.

#[local] Instance frame_preorder exempt : PreOrder (frame exempt).
Proof.
  split.
  - intros s. exists []. split; [by rewrite app_nil_r | done].
  - intros s1 s2 s3 (l1 & Hw1 & Hf1) (l2 & Hw2 & Hf2).
    exists (l1 ++ l2). split; [by rewrite Hw2, Hw1, app_assoc|].
    intros p Hex Hp. rewrite fmap_app in Hp. apply not_elem_of_app in Hp as [Hp1 Hp2].
    rewrite Hf2, Hf1; done.
Qed.

Lemma frame_same exempt s s' :
  st_written s' = st_written s → st_fs s' = st_fs s → frame exempt s s'.
Proof. intros Hw Hf. exists []. rewrite Hw, Hf, app_nil_r. done. Qed.

Lemma frame_write exempt s p c fs' :
  writeFileSync p c (st_fs s) = Ok fs' →
  frame exempt s (with_written (st_written s ++ [(p, c)]) (with_fs fs' s)).
Proof.
  intros ->%writeFileSync_Ok. exists [(p, c)]. split; [done|].
  intros q _ Hq. simpl. apply lookup_insert_ne. set_solver.
Qed.

Lemma frame_mkdirp exempt s p fs' :
  mkdirp p (st_fs s) = Ok fs' → frame exempt s (with_fs fs' s).
Proof. intros ->%mkdirp_Ok. exists []. rewrite app_nil_r. done. Qed.

Lemma frame_rimraf E d :
  preserves (frame (inside (at_path E d))) (ff_rimraf_children E d).
Proof.
  intros s. exists []. rewrite app_nil_r. split; [done|].
  intros p Hp _. simpl. by apply rimraf_children_outside.
Qed.

Ltac frame_leaf :=
  first [ by apply frame_same
        | by eapply frame_write
        | by eapply frame_mkdirp ].

Lemma frame_load_template exempt E configName t :
  preserves (frame exempt) (load_template E configName t).
Proof. unfold load_template. preserves_walk frame_leaf. Qed.
#[local] Hint Resolve frame_load_template : preserves.

Lemma prepare_fs E configName verbose gen :
  preserves (unchanged st_fs) (prepare E configName verbose gen).
Proof. preserves_walk reflexivity. Qed.

Lemma prepare_written E configName verbose gen :
  preserves (unchanged st_written) (prepare E configName verbose gen).
Proof. preserves_walk reflexivity. Qed.

Lemma generate_frame exempt E outputDir0 subDir configName actions :
  preserves (frame exempt) (generate E outputDir0 subDir configName actions).
Proof. preserves_walk frame_leaf. Qed.

Lemma invoke_callback_frame exempt callback :
  preserves (frame exempt) (invoke_callback callback).
Proof. unfold invoke_callback. preserves_walk frame_leaf. Qed.

(** The directory [d] through a run. *)
#[local] Instance keeps_dir_preorder d : PreOrder (keeps_dir d).
Proof.
  split; [intros s H; exact H|]. intros s1 s2 s3 H12 H23 H. unfold keeps_dir in *. auto.
Qed.

Lemma is_dir_mono d fs fs' :
  dirs fs ⊆ dirs fs' → is_dir d fs = true → is_dir d fs' = true.
Proof.
  unfold is_dir. intros Hsub Hd. apply bool_decide_eq_true in Hd.
  apply bool_decide_eq_true. destruct Hd as [Hd|Hd]; [by left | right; by apply Hsub].
Qed.

Ltac keeps_dir_leaf :=
  first [ intros ?; assumption
        | match goal with
          | H : writeFileSync _ _ _ = Ok _ |- _ => apply writeFileSync_Ok in H as ->; intros ?; assumption
          | H : mkdirp _ _ = Ok _ |- _ =>
              apply mkdirp_Ok in H as ->; unfold keeps_dir;
              apply is_dir_mono; simpl; set_solver
          end ].

Lemma keeps_dir_load_template d E configName t :
  preserves (keeps_dir d) (load_template E configName t).
Proof. unfold load_template. preserves_walk keeps_dir_leaf. Qed.
#[local] Hint Resolve keeps_dir_load_template : preserves.

Lemma keeps_dir_rimraf E d :
  preserves (keeps_dir (at_path E d)) (ff_rimraf_children E d).
Proof.
  intros s. unfold keeps_dir, is_dir. simpl. intros H.
  apply bool_decide_eq_true in H. apply bool_decide_eq_true.
  destruct H as [H|H]; [by left | right].
  apply elem_of_filter. split; [|done]. unfold inside. tauto.
Qed.
#[local] Hint Resolve keeps_dir_rimraf : preserves.

Lemma on_transformed_keeps_dir E outputDir0 subDir configName verbose gen callback :
  preserves (keeps_dir (at_path E (path_join [outputDir0; subDir])))
    (on_transformed E outputDir0 subDir configName verbose gen callback).
Proof. unfold on_transformed, invoke_callback. preserves_walk keeps_dir_leaf. Qed.

(** ** Clean before write *)

Lemma clean_output_Ok E outputDir0 subDir s :
  ∃ s', clean_output E outputDir0 subDir s = (Ok tt, s') ∧
        st_written s' = st_written s ∧
        ∀ p, inside (at_path E (path_join [outputDir0; subDir])) p →
             files (st_fs s') !! p = None.
Proof.
  unfold clean_output, ff_mkdirp, ff_rimraf_children. rewrite bind_unfold.
  destruct (mkdirp _ _) as [fs'|e]; simpl; eexists; (split; [reflexivity|]);
    (split; [reflexivity|]); intros p Hp; simpl; by apply rimraf_children_inside.
Qed.

Lemma after_clean_frame E outputDir0 subDir configName actions callback :
  preserves (frame (fun _ => False))
    (generate E outputDir0 subDir configName actions;; invoke_callback callback).
Proof.
  apply preserves_bind; [typeclasses eauto | apply generate_frame | intros _].
  apply invoke_callback_frame.
Qed.

(** C3.  A run that completes, or that writes anything at all, has first
    prepared and then emptied the output subdirectory: when the clean is
    over nothing has been written yet and no file is left below the
    subdirectory; everything after that only adds the files the run
    writes.  Hence a file below the subdirectory that the run does not
    write is absent afterwards, and the subdirectory itself, when it was
    there, still is. *)
Theorem clean_before_write E o config configName callback fs reg :
  let r := main E o config configName callback fs reg in
  let d := at_path E (path_join [output_root config; sub_dir configName config]) in
  r.1 = Ok tt ∨ st_written r.2 ≠ [] →
  ∃ actions s_clean,
    (actions ← prepare E configName (truthy (field (defaults config) "verbose"))
                 (run_generator config);
     clean_output E (output_root config) (sub_dir configName config);;
     mret actions) (initial_state E o config configName fs reg) = (Ok actions, s_clean) ∧
    st_written s_clean = [] ∧
    (∀ p, inside d p → files (st_fs s_clean) !! p = None) ∧
    (generate E (output_root config) (sub_dir configName config) configName actions;;
     invoke_callback callback) s_clean = r ∧
    (∀ p, inside d p → p ∉ (st_written r.2).*1 → files (st_fs r.2) !! p = None) ∧
    (is_dir d fs = true → is_dir d (st_fs r.2) = true).
Proof.
  intros r d Hr.
  assert (keeps_dir d (initial_state E o config configName fs reg) r.2) as Hdir
    by apply on_transformed_keeps_dir.
  assert (r = on_transformed E (output_root config) (sub_dir configName config)
                configName (truthy (field (defaults config) "verbose"))
                (run_generator config) callback
                (initial_state E o config configName fs reg)) as Hrun by reflexivity.
  clearbody r. unfold on_transformed in Hrun. rewrite bind_unfold in Hrun.
  pose proof (prepare_written E configName (truthy (field (defaults config) "verbose"))
                (run_generator config) (initial_state E o config configName fs reg)) as Hw.
  unfold unchanged in Hw. simpl in Hw.
  destruct (prepare _ _ _ _ _) as [[actions|e] s1] eqn:Hprep; simpl in Hw.
  - destruct (clean_output_Ok E (output_root config) (sub_dir configName config) s1)
      as (s2 & Hclean & Hw2 & Hnone).
    rewrite bind_unfold, Hclean in Hrun.
    exists actions, s2.
    split; [by rewrite bind_unfold, Hprep, bind_unfold, Hclean|].
    split; [congruence|]. split; [exact Hnone|]. split; [by rewrite Hrun|].
    split; [|exact Hdir].
    destruct (after_clean_frame E (output_root config) (sub_dir configName config)
                configName actions callback s2) as (l & Hl & Hf).
    rewrite <- Hrun in Hl, Hf.
    intros p Hp Hnot. rewrite Hf; [by apply Hnone | tauto |].
    rewrite Hl, Hw2, Hw in Hnot. exact Hnot.
  - subst r. simpl in Hr. destruct Hr as [Hr|Hr]; [discriminate | by rewrite Hw in Hr].
Qed.

Lemma clean_before_write_witness :
  files (st_fs (main Bench.env VNull Bench.config "go" true Bench.disk Bench.registry).2)
    !! ["home"; "out"; "go"; "junk.txt"] = None.
Proof.
  destruct (clean_before_write Bench.env VNull Bench.config "go" true Bench.disk
              Bench.registry (or_introl eq_refl)) as (_ & _ & _ & _ & _ & _ & H & _).
  apply H; vm_compute; [split; [by eexists [_] | discriminate] |].
  intros Hin. repeat (apply elem_of_cons in Hin as [Hin|Hin]; [discriminate|]).
  by apply elem_of_nil in Hin.
Defined.

(** ** Completed runs, step by step *)

Lemma ff_createFile_Ok E p c s s' :
  ff_createFile E p c s = (Ok tt, s') →
  ∃ fs', writeFileSync (at_path E p) c (st_fs s) = Ok fs' ∧
         s' = with_written (st_written s ++ [(at_path E p, c)]) (with_fs fs' s).
Proof.
  unfold ff_createFile. destruct (writeFileSync _ _ _) as [fs'|e]; [|done].
  intros [= <-]. eauto.
Qed.

Lemma ff_readFileSync_Ok E p s text s' :
  ff_readFileSync E p s = (Ok text, s') →
  s' = s ∧ files (st_fs s) !! at_path E p = Some text.
Proof.
  unfold ff_readFileSync, readFileSync.
  destruct (files (st_fs s) !! at_path E p) as [c|]; [|done].
  by intros [= <- <-].
Qed.

Lemma call_template_Ok E src ctx s out s' :
  call_template E src ctx s = (Ok out, s') →
  s' = s ∧ hb_call E (st_registry s) src ctx = Ok out.
Proof. unfold call_template. by intros [= -> <-]. Qed.

Lemma get_model_Ok s m s' :
  get_model s = (Ok m, s') → s' = s ∧ st_model s = Some m.
Proof. unfold get_model. destruct (st_model s); [|done]. by intros [= <- <-]. Qed.

(** The states a completed run goes through. *)
Lemma completed_run E o config configName callback fs reg :
  (main E o config configName callback fs reg).1 = Ok tt →
  ∃ actions s1 s2 s3 s4 s5 s6 s7,
    prepare E configName (truthy (field (defaults config) "verbose")) (run_generator config)
      (initial_state E o config configName fs reg) = (Ok actions, s1) ∧
    clean_output E (output_root config) (sub_dir configName config) s1 = (Ok tt, s2) ∧
    make_directories E (output_root config) (sub_dir configName config) s2 = (Ok tt, s3) ∧
    whole_output E (output_root config) (sub_dir configName config) actions s3
      = (Ok tt, s4) ∧
    touch_files E (output_root config) (sub_dir configName config) s4 = (Ok tt, s5) ∧
    write_license E (output_root config) (sub_dir configName config) s5 = (Ok tt, s6) ∧
    fan_out E (output_root config) (sub_dir configName config) configName s6 = (Ok tt, s7) ∧
    invoke_callback callback s7 = main E o config configName callback fs reg.
Proof.
  intros Hr. destruct (main _ _ _ _ _ _ _) as [res s'] eqn:Hmain. simpl in Hr. subst res.
  unfold main, on_transformed, generate in Hmain.
  apply bind_Ok in Hmain as (actions & s1 & H1 & Hmain).
  apply bind_Ok in Hmain as ([] & s2 & H2 & Hmain).
  apply bind_Ok in Hmain as ([] & s7 & Hgen & Hmain).
  apply bind_Ok in Hgen as ([] & s3 & H3 & Hgen).
  apply bind_Ok in Hgen as ([] & s4 & H4 & Hgen).
  apply bind_Ok in Hgen as ([] & s5 & H5 & Hgen).
  apply bind_Ok in Hgen as ([] & s6 & H6 & H7).
  exists actions, s1, s2, s3, s4, s5, s6, s7. eauto 10.
Qed.

Lemma preserves_Ok {A} (R : relation State) (m : M A) s a s' :
  preserves R m → m s = (Ok a, s') → R s s'.
Proof. intros Hm Hs. specialize (Hm s). by rewrite Hs in Hm. Qed.

Lemma prepare_config E configName verbose gen :
  preserves config_kept (prepare E configName verbose gen).
Proof. preserves_walk (by apply config_kept_same). Qed.

Lemma clean_output_config E outputDir0 subDir :
  preserves config_kept (clean_output E outputDir0 subDir).
Proof. preserves_walk (by apply config_kept_same). Qed.

Lemma clean_output_frame E outputDir0 subDir :
  preserves (frame (inside (at_path E (path_join [outputDir0; subDir]))))
    (clean_output E outputDir0 subDir).
Proof.
  unfold clean_output. apply preserves_bind; [typeclasses eauto | | intros _].
  - preserves_walk frame_leaf.
  - apply frame_rimraf.
Qed.

Section Steps.

Context (E : Env) (outputDir0 subDir configName : string).

Lemma make_directories_config : preserves config_kept (make_directories E outputDir0 subDir).
Proof. preserves_walk (by apply config_kept_same). Qed.

Lemma whole_output_config actions :
  preserves config_kept (whole_output E outputDir0 subDir actions).
Proof. preserves_walk (by apply config_kept_same). Qed.

Lemma touch_files_config : preserves config_kept (touch_files E outputDir0 subDir).
Proof. preserves_walk (by apply config_kept_same). Qed.

Lemma make_directories_frame : preserves (frame (fun _ => False)) (make_directories E outputDir0 subDir).
Proof. preserves_walk frame_leaf. Qed.

Lemma whole_output_frame actions :
  preserves (frame (fun _ => False)) (whole_output E outputDir0 subDir actions).
Proof. preserves_walk frame_leaf. Qed.

Lemma touch_files_frame : preserves (frame (fun _ => False)) (touch_files E outputDir0 subDir).
Proof. preserves_walk frame_leaf. Qed.

Lemma fan_out_frame : preserves (frame (fun _ => False)) (fan_out E outputDir0 subDir configName).
Proof. preserves_walk frame_leaf. Qed.

Lemma write_license_Ok s s' :
  write_license E outputDir0 subDir s = (Ok tt, s') →
  ∃ text fs',
    files (st_fs s) !! at_path E (license_source E (apache (st_config s))) = Some text ∧
    writeFileSync (at_path E (out_path outputDir0 subDir "LICENSE")) text (st_fs s) = Ok fs' ∧
    s' = with_written (st_written s ++ [(at_path E (out_path outputDir0 subDir "LICENSE"), text)])
           (with_fs fs' s).
Proof.
  unfold write_license, get_config. intros H.
  apply bind_Ok in H as (cfg & s1 & H1 & H). injection H1 as <- <-.
  apply bind_Ok in H as (text & s2 & H2 & H).
  apply ff_readFileSync_Ok in H2 as [-> Hread].
  apply ff_createFile_Ok in H as (fs' & Hw & ->). eauto.
Qed.

End Steps.

(** ** The license *)

Lemma license_source_builtin E flag :
  license_source E flag =
  path_join [dirname E; "templates"; "_common";
             if truthy_flag flag then "LICENSE" else "UNLICENSE"].
Proof. unfold license_source, tpl. simpl. by destruct (truthy_flag flag). Qed.



(** ** The touch list *)

Section Touch.

Context (E : Env) (outputDir0 subDir : string).

Lemma existsSync_write p c fs fs' q :
  writeFileSync p c fs = Ok fs' → q ≠ p → existsSync q fs' = existsSync q fs.
Proof.
  intros ->%writeFileSync_Ok Hne. unfold existsSync, is_dir. simpl.
  by rewrite lookup_insert_ne.
Qed.

Lemma existsSync_written p c fs fs' :
  writeFileSync p c fs = Ok fs' → existsSync p fs' = true.
Proof.
  intros ->%writeFileSync_Ok. unfold existsSync. simpl.
  rewrite lookup_insert_eq. rewrite bool_decide_eq_true_2; [done | eauto].
Qed.

(** One line of the touch list: a blank line and the name of something
    that exists change nothing; any other name becomes an empty file. *)
Lemma touch_file_Ok line s s' :
  touch_file E outputDir0 subDir line s = (Ok tt, s') →
  let p := at_path E (out_path outputDir0 subDir (trim line)) in
  (trim line = "" ∨ existsSync p (st_fs s) = true) ∧ s' = s
  ∨ trim line ≠ "" ∧ existsSync p (st_fs s) = false ∧
    ∃ fs', writeFileSync p "" (st_fs s) = Ok fs' ∧
           s' = with_written (st_written s ++ [(p, "")]) (with_fs fs' s).
Proof.
  intros H p. unfold touch_file in H. cbv zeta in H.
  destruct (String.eqb (trim line) "") eqn:Hblank; simpl in H.
  - apply String.eqb_eq in Hblank. injection H as <-. auto.
  - apply String.eqb_neq in Hblank.
    apply bind_Ok in H as (present & s1 & Hp & H).
    unfold fs_existsSync in Hp. injection Hp as <- <-. fold p in H |- *.
    destruct (existsSync p (st_fs s)) eqn:Hex; simpl in H.
    + injection H as <-. auto.
    + right. apply ff_createFile_Ok in H as (fs' & Hw & ->). eauto.
Qed.

Lemma touched_cons line lines :
  touched E outputDir0 subDir (line :: lines) =
  if decide (trim line = "") then touched E outputDir0 subDir lines
  else at_path E (out_path outputDir0 subDir (trim line)) :: touched E outputDir0 subDir lines.
Proof.
  unfold touched, touch_names. rewrite fmap_cons, filter_cons.
  destruct (decide (trim line ≠ "")), (decide (trim line = "")); done.
Qed.

Lemma touch_loop_Ok lines : ∀ s s',
  for_each lines (touch_file E outputDir0 subDir) s = (Ok tt, s') →
  dirs (st_fs s') = dirs (st_fs s) ∧
  ∀ p, files (st_fs s') !! p =
       if decide (p ∈ touched E outputDir0 subDir lines ∧ existsSync p (st_fs s) = false)
       then Some ""
       else files (st_fs s) !! p.
Proof.
  induction lines as [|line lines IH]; intros s s' H.
  - injection H as <-. split; [done|]. intros p. case_decide as Hd; [|done].
    destruct Hd as [Hd _]. by apply elem_of_nil in Hd.
  - apply for_each_cons_Ok in H as (s1 & Hline & Hrest).
    apply IH in Hrest as [Hdirs Hfiles]. clear IH.
    apply touch_file_Ok in Hline. rewrite touched_cons.
    set (q := at_path E (out_path outputDir0 subDir (trim line))) in *.
    destruct Hline as [[Hskip ->]|(Hname & Hnew & fs' & Hw & ->)].
    + split; [done|]. intros p. rewrite Hfiles.
      destruct (decide (trim line = "")) as [Hb|Hb]; [done|].
      destruct Hskip as [Hblank|Hex]; [done|].
      destruct (decide (p = q)) as [->|Hne].
      * rewrite !decide_False by (intros [_ ?]; congruence). done.
      * destruct (decide (p ∈ touched E outputDir0 subDir lines
                          ∧ existsSync p (st_fs s) = false)) as [[Hin Hp]|Hn].
        -- rewrite decide_True; [done | split; [by right | done]].
        -- rewrite decide_False; [done|]. intros [Hin Hp].
           apply elem_of_cons in Hin as [?|Hin]; [done | tauto].
    + destruct (decide (trim line = "")) as [Hb|_]; [done|]. simpl in *. split.
      { rewrite Hdirs. by apply writeFileSync_Ok in Hw as ->. }
      intros p. rewrite Hfiles.
      destruct (decide (p = q)) as [->|Hne].
      * rewrite (existsSync_written _ _ _ _ Hw).
        rewrite decide_False by (intros [_ ?]; done).
        rewrite decide_True by (split; [left|]; done).
        apply writeFileSync_Ok in Hw as ->. simpl. apply lookup_insert_eq.
      * rewrite (existsSync_write _ _ _ _ _ Hw Hne).
        assert (files fs' !! p = files (st_fs s) !! p) as ->.
        { apply writeFileSync_Ok in Hw as ->. simpl. by apply lookup_insert_ne. }
        destruct (decide (p ∈ touched E outputDir0 subDir lines
                          ∧ existsSync p (st_fs s) = false)) as [[Hin Hp]|Hn].
        -- rewrite decide_True; [done | split; [by right | done]].
        -- rewrite decide_False; [done|]. intros [Hin Hp].
           apply elem_of_cons in Hin as [?|Hin]; [done | tauto].
Qed.

End Touch.

(** Both line endings, white space and blank lines in a touch list. *)
Example touch_names_line_endings :
  touch_names (touch_lines ("a.txt" +:+ String CR (String LF "  b.txt  ")
                              +:+ String LF (String LF "c.txt")))
  = ["a.txt"; "b.txt"; "c.txt"].
Proof. vm_compute. reflexivity. Qed.

Lemma touch_files_Ok E outputDir0 subDir t render s s' :
  touch (st_config s) = Some t → t ≠ "" → hb_render E = Some render →
  touch_files E outputDir0 subDir s = (Ok tt, s') →
  ∃ m text,
    st_model s = Some m ∧ render (st_registry s) t (VObj m) = Ok text ∧
    for_each (touch_lines text) (touch_file E outputDir0 subDir) s = (Ok tt, s').
Proof.
  intros Ht Hne Hr H. unfold touch_files, get_config in H.
  apply bind_Ok in H as (cfg & s1 & H1 & H). injection H1 as <- <-.
  rewrite Ht in H. simpl in H. apply String.eqb_neq in Hne. rewrite Hne in H. simpl in H.
  apply bind_Ok in H as (src & s1 & H1 & H). injection H1 as <- <-.
  apply bind_Ok in H as (m & s1 & H1 & H). apply get_model_Ok in H1 as [-> Hm].
  apply bind_Ok in H as (text & s1 & H1 & H).
  unfold render_member in H1. rewrite Hr in H1. injection H1 as H1 <-.
  eauto.
Qed.



(** The run of [Bench.env_touch]: the whole-output pass writes [b.txt],
    the touch list names [a.txt] and [b.txt]; [a.txt] is made empty,
    [b.txt] keeps what the pass wrote, and both are there before the
    license and the fan-out files are written. *)
Example touch_run :
  st_written (main Bench.env_touch VNull Bench.config_touch "go" true
                Bench.disk Bench.registry).2 =
  [(["home"; "out"; "go"; "b.txt"], "README");
   (["home"; "out"; "go"; "a.txt"], "");
   (["home"; "out"; "go"; "LICENSE"], "Apache License");
   (["home"; "out"; "go"; "pets"], "pets");
   (["home"; "out"; "go"; "store"], "store");
   (["home"; "out"; "go"; "Default"], "Default");
   (["home"; "out"; "go"; "getPet"], "getPet");
   (["home"; "out"; "go"; "addPet"], "addPet");
   (["home"; "out"; "go"; "buy"], "buy")].
Proof. vm_compute. reflexivity. Qed.


(** ** The fan-out passes *)

(** What a loop writes, when each turn writes what [Rel] says. *)
Lemma for_each_trace {A} (P : State → Prop) (Rel : A → list (path * string) → Prop)
    (body : A → M unit) (l : list A) :
  (∀ x s s', P s → body x s = (Ok tt, s') →
             P s' ∧ ∃ L, st_written s' = st_written s ++ L ∧ Rel x L) →
  ∀ s s', P s → for_each l body s = (Ok tt, s') →
          P s' ∧ ∃ LL, st_written s' = st_written s ++ concat LL ∧ Forall2 Rel l LL.
Proof.
  intros Hbody. induction l as [|x l IH]; intros s s' HP H.
  - injection H as <-. split; [done|]. exists []. by rewrite app_nil_r.
  - apply for_each_cons_Ok in H as (s1 & Hx & Hl).
    destruct (Hbody x s s1 HP Hx) as (HP1 & L & HwL & HR).
    destruct (IH s1 s' HP1 Hl) as (HP' & LL & HwLL & HF).
    split; [done|]. exists (L :: LL). split; [|by constructor].
    rewrite HwLL, HwL. simpl. by rewrite app_assoc.
Qed.

Lemma Forall2_concat_singletons {A B} (R : A → B → Prop) l LL :
  Forall2 (fun x L => ∃ e, L = [e] ∧ R x e) l LL → Forall2 R l (concat LL).
Proof.
  induction 1 as [|x L l LL (e & -> & He) _ IH]; simpl; [constructor|].
  by constructor.
Qed.

Lemma Forall2_concat {A B} (R : A → B → Prop) (ll : list (list A)) LL :
  Forall2 (Forall2 R) ll LL → Forall2 R (concat ll) (concat LL).
Proof.
  induction 1 as [|l L ll LL Hl _ IH]; simpl; [constructor|].
  by apply Forall2_app.
Qed.

Lemma pass_state_start cfg reg model scratch s :
  st_config s = cfg → st_registry s = reg → st_model s = Some model →
  pass_state cfg reg model scratch s.
Proof. intros. split; [done|]. split; [done|]. eauto. Qed.

Lemma pass_state_field cfg reg model scratch s m k :
  pass_state cfg reg model scratch s → st_model s = Some m → k ≠ scratch →
  field m k = field model k.
Proof.
  intros (_ & _ & m' & Hm' & Hd) Hm Hk. rewrite Hm in Hm'. injection Hm' as <-.
  unfold field. apply (f_equal (fun o => o !! k)) in Hd.
  by rewrite !lookup_delete_ne in Hd by done; rewrite Hd.
Qed.

Lemma insert_scratch (m model : obj) scratch v :
  delete scratch m = delete scratch model → <[scratch := v]> m = <[scratch := v]> model.
Proof. intros H. by rewrite <- (insert_delete_eq m), <- (insert_delete_eq model), H. Qed.

(** *** perApi: the merged context *)

Lemma item_context_lookup global pa toplevel item k :
  item_context global pa toplevel item !! k =
  first_with k [own_fields item; toplevel; spec_defaults pa; global].
Proof.
  unfold item_context, object_assign. simpl.
  rewrite !lookup_union, lookup_empty.
  destruct (own_fields item !! k), (toplevel !! k), (spec_defaults pa !! k), (global !! k);
    reflexivity.
Qed.

Section PerApi.

Context (E : Env) (outputDir0 subDir configName : string).
Context (cfg : Config) (reg : Registry) (model : obj).


Lemma api_collection_Ok k s l s' :
  api_collection k s = (Ok l, s') →
  s' = s ∧ ∃ m, st_model s = Some m ∧
    match get_prop (field m "apiInfo") k with
    | Ok coll => iterate coll
    | Throw e => Throw e
    end = Ok l.
Proof.
  unfold api_collection. intros H.
  apply bind_Ok in H as (m & s1 & H1 & H). apply get_model_Ok in H1 as [-> Hm].
  apply bind_Ok in H as (coll & s1 & H1 & H). unfold lift in H1, H.
  injection H1 as H1 <-. injection H as H <-.
  split; [done|]. exists m. split; [done|]. by rewrite H1.
Qed.

Lemma perApi_item_Ok pa fnTemplate template toplevel api s s' :
  (pass_fixed cfg reg model) s → perApi_item E outputDir0 subDir pa fnTemplate template toplevel api s = (Ok tt, s') →
  (pass_fixed cfg reg model) s' ∧ ∃ L, st_written s' = st_written s ++ L ∧
    ∃ e, L = [e] ∧
      rendered E reg outputDir0 subDir fnTemplate template
        (VObj (item_context (defaults cfg) pa toplevel api)) e.
Proof.
  intros HP H. unfold perApi_item, get_config in H.
  apply bind_Ok in H as (c & s1 & H1 & H). injection H1 as <- <-.
  apply bind_Ok in H as (filename & s1 & H1 & H). apply call_template_Ok in H1 as [-> Hfn].
  apply bind_Ok in H as (content & s1 & H1 & H). apply call_template_Ok in H1 as [-> Hc].
  apply ff_createFile_Ok in H as (fs' & Hw & ->).
  destruct HP as (Hcfg & Hreg & Hm). rewrite Hcfg, Hreg in *.
  split; [done|]. eexists. split; [reflexivity|]. eexists. split; [reflexivity|].
  exists filename, content. done.
Qed.

Lemma perApi_spec_Ok toplevel pa s s' :
  (pass_fixed cfg reg model) s → perApi_spec E outputDir0 subDir configName toplevel pa s = (Ok tt, s') →
  (pass_fixed cfg reg model) s' ∧ ∃ L, st_written s' = st_written s ++ L ∧
    ∃ template apis, apis_of model = Ok apis ∧
      Forall2 (fun api e =>
                 rendered E reg outputDir0 subDir (fo_output pa) template
                   (VObj (item_context (defaults cfg) pa toplevel api)) e) apis L.
Proof.
  intros HP H. unfold perApi_spec, get_config in H.
  apply bind_Ok in H as (fn & s1 & H1 & H). injection H1 as <- <-.
  apply bind_Ok in H as (c & s1 & H1 & H). injection H1 as <- <-.
  apply bind_Ok in H as (src & s1 & H1 & H). apply ff_readFileSync_Ok in H1 as [-> _].
  apply bind_Ok in H as (template & s1 & H1 & H). injection H1 as <- <-.
  apply bind_Ok in H as (apis & s1 & H1 & H).
  apply api_collection_Ok in H1 as (-> & m & Hm & Hapis).
  assert (m = model) as -> by (destruct HP as (_ & _ & HP); congruence).
  destruct (for_each_trace (pass_fixed cfg reg model) _ _ apis
              (fun api s s' HP H => perApi_item_Ok pa _ _ toplevel api s s' HP H)
              s s' HP H) as (HP' & LL & Hw & HF).
  split; [done|]. exists (concat LL). split; [done|]. exists src, apis. split; [done|].
  by apply Forall2_concat_singletons.
Qed.

End PerApi.

(** C1.  A completed perApi pass writes, for every fan-out spec in turn
    and every item of [apiInfo.apis] in turn, one file: the output and
    body templates rendered against the context merged, field by field,
    from the global defaults, the defaults of the spec, the model without
    its [apiInfo], and the item.  A field of the context comes from the
    item when the item has it, else from the model without [apiInfo],
    else from the spec defaults, else from the global defaults. *)
Theorem perApi_merge_precedence E outputDir0 subDir configName s s' specs model :
  st_model s = Some model → perApi (st_config s) = Some specs →
  perApi_pass E outputDir0 subDir configName s = (Ok tt, s') →
  let toplevel := delete "apiInfo" model in
  let global := defaults (st_config s) in
  (∃ LL, st_written s' = st_written s ++ concat LL ∧
     Forall2 (fun pa L =>
                ∃ template apis, apis_of model = Ok apis ∧
                  Forall2 (fun api e =>
                             rendered E (st_registry s) outputDir0 subDir
                               (fo_output pa) template
                               (VObj (item_context global pa toplevel api)) e) apis L)
       specs LL) ∧
  ∀ pa api k,
    item_context global pa toplevel api !! k =
    first_with k [own_fields api; toplevel; spec_defaults pa; global].
Proof.
  intros Hm Hspecs H toplevel global. split; [|intros; apply item_context_lookup].
  unfold perApi_pass, get_config in H.
  apply bind_Ok in H as (c & s1 & H1 & H). injection H1 as <- <-.
  rewrite Hspecs in H.
  apply bind_Ok in H as (m & s1 & H1 & H). apply get_model_Ok in H1 as [-> Hm'].
  assert (m = model) as -> by congruence.
  assert (pass_fixed (st_config s) (st_registry s) model s) as HP by done.
  destruct (for_each_trace _ _ _ specs
              (perApi_spec_Ok E outputDir0 subDir configName (st_config s) (st_registry s)
                 model (toplevel_of model))
              s s' HP H) as (_ & LL & Hw & HF).
  exists LL. split; [done|]. exact HF.
Qed.

(** *** perOperation: one file per operation *)

Lemma length_concat_sum {A} (ll : list (list A)) :
  length (concat ll) = sum_list_with length ll.
Proof. induction ll as [|l ll IH]; simpl; [done|]. by rewrite length_app, IH. Qed.

Lemma Forall2_split_exists {A B C} (Q : A → B → Prop) (S : B → C → Prop) l LL :
  Forall2 (fun x L => ∃ y, Q x y ∧ S y L) l LL →
  ∃ ys, Forall2 Q l ys ∧ Forall2 S ys LL.
Proof.
  induction 1 as [|x L l LL (y & HQ & HS) _ (ys & HQs & HSs)].
  - exists []. split; constructor.
  - exists (y :: ys). split; by constructor.
Qed.

Section PerOperation.

Context (E : Env) (outputDir0 subDir configName : string).
Context (cfg : Config) (reg : Registry) (model : obj).


Lemma set_model_field_Ok k v s s' :
  set_model_field k v s = (Ok tt, s') →
  ∃ m, st_model s = Some m ∧ s' = with_model (Some (<[k := v]> m)) s.
Proof.
  unfold set_model_field. intros H.
  apply bind_Ok in H as (m & s1 & H1 & H). apply get_model_Ok in H1 as [-> Hm].
  injection H as <-. eauto.
Qed.

Lemma perOperation_item_Ok fnTemplate template operation s s' :
  (pass_state cfg reg model "operations") s → perOperation_item E outputDir0 subDir fnTemplate template operation s = (Ok tt, s') →
  (pass_state cfg reg model "operations") s' ∧ ∃ L, st_written s' = st_written s ++ L ∧
    ∃ e, L = [e] ∧
      rendered E reg outputDir0 subDir fnTemplate template
        (VObj (<["operations" := VArr [operation]]> model)) e.
Proof.
  intros (Hcfg & Hreg & m0 & Hm0 & Hd) H. unfold perOperation_item in H.
  apply bind_Ok in H as ([] & s1 & H1 & H).
  apply set_model_field_Ok in H1 as (m & Hm & ->).
  assert (m = m0) as -> by congruence.
  apply bind_Ok in H as (outer & s1 & H1 & H). apply get_model_Ok in H1 as [-> Ho].
  simpl in Ho. injection Ho as <-.
  apply bind_Ok in H as (filename & s1 & H1 & H). apply call_template_Ok in H1 as [-> Hfn].
  apply bind_Ok in H as (content & s1 & H1 & H). apply call_template_Ok in H1 as [-> Hc].
  apply ff_createFile_Ok in H as (fs' & Hw & ->). simpl in *.
  rewrite (insert_scratch _ _ _ _ Hd), Hreg in *.
  split.
  - split; [done|]. split; [done|]. eexists. split; [reflexivity|].
    by rewrite !delete_insert_eq.
  - eexists. split; [reflexivity|]. eexists. split; [reflexivity|].
    exists filename, content. done.
Qed.

Lemma perOperation_api_Ok po api s s' :
  (pass_state cfg reg model "operations") s → perOperation_api E outputDir0 subDir configName po api s = (Ok tt, s') →
  (pass_state cfg reg model "operations") s' ∧ ∃ L, st_written s' = st_written s ++ L ∧
    ∃ ops, operations_of api = Ok ops ∧
      Forall2 (fun operation e =>
                 ∃ template,
                   rendered E reg outputDir0 subDir (fo_output po) template
                     (VObj (<["operations" := VArr [operation]]> model)) e) ops L.
Proof.
  intros HP H. unfold perOperation_api, get_config in H.
  apply bind_Ok in H as (operations & s1 & H1 & H). injection H1 as Hops <-.
  apply bind_Ok in H as (fn & s1 & H1 & H). injection H1 as <- <-.
  apply bind_Ok in H as (c & s1 & H1 & H). injection H1 as <- <-.
  apply bind_Ok in H as (src & s1 & H1 & H). apply ff_readFileSync_Ok in H1 as [-> _].
  apply bind_Ok in H as (template & s1 & H1 & H). injection H1 as <- <-.
  apply bind_Ok in H as (operation & s1 & H1 & H). injection H1 as Hop <-.
  apply bind_Ok in H as (items & s1 & H1 & H). injection H1 as Hit <-.
  destruct (for_each_trace (pass_state cfg reg model "operations") _ _ items (perOperation_item_Ok (fo_output po) src)
              s s' HP H) as (HP' & LL & Hw & HF).
  split; [done|]. exists (concat LL). split; [done|]. exists items. split.
  - unfold operations_of. by rewrite Hops, Hop.
  - apply Forall2_concat_singletons.
    eapply Forall2_impl; [exact HF|]. intros op L (e & -> & He). eauto.
Qed.

Lemma perOperation_spec_Ok po s s' :
  (pass_state cfg reg model "operations") s → perOperation_spec E outputDir0 subDir configName po s = (Ok tt, s') →
  (pass_state cfg reg model "operations") s' ∧ ∃ L, st_written s' = st_written s ++ L ∧
    ∃ apis opss,
      apis_of model = Ok apis ∧
      Forall2 (fun api ops => operations_of api = Ok ops) apis opss ∧
      Forall2 (fun operation e =>
                 ∃ template,
                   rendered E reg outputDir0 subDir (fo_output po) template
                     (VObj (<["operations" := VArr [operation]]> model)) e)
        (concat opss) L ∧
      length L = sum_list_with length opss.
Proof.
  intros HP H. unfold perOperation_spec in H.
  apply bind_Ok in H as (apis & s1 & H1 & H).
  apply api_collection_Ok in H1 as (-> & m & Hm & Hapis).
  rewrite (pass_state_field _ _ _ _ _ _ "apiInfo" HP Hm) in Hapis by done.
  destruct (for_each_trace (pass_state cfg reg model "operations") _ _ apis (perOperation_api_Ok po) s s' HP H)
    as (HP' & LL & Hw & HF).
  apply Forall2_split_exists in HF as (opss & Hopss & HF).
  split; [done|]. exists (concat LL). split; [done|]. exists apis, opss.
  split; [done|]. split; [done|].
  assert (Forall2 (fun operation e =>
                     ∃ template,
                       rendered E reg outputDir0 subDir (fo_output po) template
                         (VObj (<["operations" := VArr [operation]]> model)) e)
            (concat opss) (concat LL)) as Hall by by apply Forall2_concat.
  split; [done|].
  rewrite <- (Forall2_length _ _ _ Hall). apply length_concat_sum.
Qed.

End PerOperation.

(** C6.  A completed perOperation pass writes, for every fan-out spec in
    turn, one file for every operation of every API: with [k] operations
    in the [i]-th API, the sum of the [k] files.  Each is the output and
    body templates rendered against the model whose [operations] field is
    the list of that one operation. *)
Theorem perOperation_cardinality E outputDir0 subDir configName s s' specs model :
  st_model s = Some model → perOperation (st_config s) = Some specs →
  perOperation_pass E outputDir0 subDir configName s = (Ok tt, s') →
  ∃ LL, st_written s' = st_written s ++ concat LL ∧
    Forall2 (fun po L =>
               ∃ apis opss,
                 apis_of model = Ok apis ∧
                 Forall2 (fun api ops => operations_of api = Ok ops) apis opss ∧
                 Forall2 (fun operation e =>
                            ∃ template,
                              rendered E (st_registry s) outputDir0 subDir
                                (fo_output po) template
                                (VObj (<["operations" := VArr [operation]]> model)) e)
                   (concat opss) L ∧
                 length L = sum_list_with length opss)
      specs LL.
Proof.
  intros Hm Hspecs H. unfold perOperation_pass, get_config in H.
  apply bind_Ok in H as (c & s1 & H1 & H). injection H1 as <- <-.
  rewrite Hspecs in H.
  assert (pass_state (st_config s) (st_registry s) model "operations" s) as HP
    by by apply pass_state_start.
  destruct (for_each_trace _ _ _ specs
              (perOperation_spec_Ok E outputDir0 subDir configName (st_config s)
                 (st_registry s) model)
              s s' HP H) as (_ & LL & Hw & HF).
  exists LL. split; [done|]. exact HF.
Qed.

Lemma perApi_merge_precedence_witness :
  item_context (defaults Bench.config) Bench.api_spec (delete "apiInfo" Bench.petstore)
    Bench.pets !! "x" = Some (VStr "item") ∧
  item_context (defaults Bench.config) Bench.api_spec (delete "apiInfo" Bench.petstore)
    Bench.store !! "x" = Some (VStr "top").
Proof.
  destruct (perApi_merge_precedence Bench.env "./out/" "go" "go" Bench.state
              (perApi_pass Bench.env "./out/" "go" "go" Bench.state).2
              [Bench.api_spec] Bench.petstore eq_refl eq_refl
              ltac:(vm_compute; reflexivity)) as [_ H].
  split; (etrans; [apply H | vm_compute; reflexivity]).
Defined.

Lemma perOperation_cardinality_witness :
  ∃ LL, st_written (perOperation_pass Bench.env "./out/" "go" "go" Bench.state).2
        = st_written Bench.state ++ concat LL ∧
        length LL = 1%nat.
Proof.
  destruct (perOperation_cardinality Bench.env "./out/" "go" "go" Bench.state
              (perOperation_pass Bench.env "./out/" "go" "go" Bench.state).2
              [Bench.operation_spec] Bench.petstore eq_refl eq_refl
              ltac:(vm_compute; reflexivity)) as (LL & Hw & HF).
  exists LL. split; [exact Hw|]. by rewrite <- (Forall2_length _ _ _ HF).
Defined.

(** The run of [Bench.env] writes three perOperation files, two for the
    first API and one for the second. *)
Example perOperation_run :
  st_written (perOperation_pass Bench.env "./out/" "go" "go" Bench.state).2 =
  [(["home"; "out"; "go"; "getPet"], "getPet");
   (["home"; "out"; "go"; "addPet"], "addPet");
   (["home"; "out"; "go"; "buy"], "buy")].
Proof. vm_compute. reflexivity. Qed.

(** *** perModel: the effective item *)

(** In the effective item a field comes from the spec defaults when they
    have it, and from the item otherwise. *)
Lemma effective_model_lookup item pm k :
  effective_model item pm !! k = first_with k [spec_defaults pm; own_fields item].
Proof.
  unfold effective_model, object_assign. simpl.
  rewrite !lookup_union, lookup_empty.
  destruct (spec_defaults pm !! k), (own_fields item !! k); reflexivity.
Qed.

(** C5, evaluated.  In the effective item of the perModel pass the spec
    defaults come last in [Object.assign] and win: a field is the spec
    default when there is one, and the item's own only otherwise.  On the
    model item called [Pet], with spec defaults that have the name
    [Default], the effective item is called [Default] and the perModel
    pass writes the file [Default]: the item's own name is overridden. *)
Theorem perModel_defaults_override :
  (∀ item pm k,
     effective_model item pm !! k = first_with k [spec_defaults pm; own_fields item]) ∧
  own_fields Bench.pet !! "name" = Some (VStr "Pet") ∧
  spec_defaults Bench.model_spec !! "name" = Some (VStr "Default") ∧
  effective_model Bench.pet Bench.model_spec !! "name" = Some (VStr "Default") ∧
  perModel_pass Bench.env "./out/" "go" "go" Bench.state =
    (Ok tt,
     with_written [(["home"; "out"; "go"; "Default"], "Default")]
       (with_fs (mkFS (<[ ["home"; "out"; "go"; "Default"] := "Default" ]> (files Bench.disk))
                      (dirs Bench.disk))
          (with_model
             (Some (<["models" := VArr [VObj (effective_model Bench.pet Bench.model_spec)]]>
                      Bench.petstore))
             Bench.state))).
Proof.
  split; [apply effective_model_lookup|].
  assert (effective_model Bench.pet Bench.model_spec !! "name" = Some (VStr "Default")) as Hn.
  { rewrite effective_model_lookup. reflexivity. }
  split; [reflexivity|]. split; [reflexivity|]. split; [exact Hn|].
  vm_compute. reflexivity.
Qed.

Section PerModel.

Context (E : Env) (outputDir0 subDir configName : string).
Context (cfg : Config) (reg : Registry) (model : obj).


Lemma perModel_item_Ok fnTemplate template pm item s s' :
  (pass_state cfg reg model "models") s → perModel_item E outputDir0 subDir fnTemplate template pm item s = (Ok tt, s') →
  (pass_state cfg reg model "models") s' ∧ ∃ L, st_written s' = st_written s ++ L ∧
    ∃ e, L = [e] ∧
      rendered E reg outputDir0 subDir fnTemplate template
        (VObj (<["models" := VArr [VObj (effective_model item pm)]]> model)) e.
Proof.
  intros (Hcfg & Hreg & m0 & Hm0 & Hd) H. unfold perModel_item in H.
  apply bind_Ok in H as ([] & s1 & H1 & H).
  apply set_model_field_Ok in H1 as (m & Hm & ->).
  assert (m = m0) as -> by congruence.
  apply bind_Ok in H as (outer & s1 & H1 & H). apply get_model_Ok in H1 as [-> Ho].
  simpl in Ho. injection Ho as <-.
  apply bind_Ok in H as (filename & s1 & H1 & H). apply call_template_Ok in H1 as [-> Hfn].
  apply bind_Ok in H as (content & s1 & H1 & H). apply call_template_Ok in H1 as [-> Hc].
  apply ff_createFile_Ok in H as (fs' & Hw & ->). simpl in *.
  rewrite (insert_scratch _ _ _ _ Hd), Hreg in *.
  split.
  - split; [done|]. split; [done|]. eexists. split; [reflexivity|].
    by rewrite !delete_insert_eq.
  - eexists. split; [reflexivity|]. eexists. split; [reflexivity|].
    exists filename, content. done.
Qed.

Lemma perModel_spec_Ok cModels pm s s' :
  (pass_state cfg reg model "models") s → perModel_spec E outputDir0 subDir configName cModels pm s = (Ok tt, s') →
  (pass_state cfg reg model "models") s' ∧ ∃ L, st_written s' = st_written s ++ L ∧
    ∃ template items, iterate cModels = Ok items ∧
      Forall2 (fun item e =>
                 rendered E reg outputDir0 subDir (fo_output pm) template
                   (VObj (<["models" := VArr [VObj (effective_model item pm)]]> model)) e)
        items L.
Proof.
  intros HP H. unfold perModel_spec, get_config in H.
  apply bind_Ok in H as (fn & s1 & H1 & H). injection H1 as <- <-.
  apply bind_Ok in H as (c & s1 & H1 & H). injection H1 as <- <-.
  apply bind_Ok in H as (src & s1 & H1 & H). apply ff_readFileSync_Ok in H1 as [-> _].
  apply bind_Ok in H as (template & s1 & H1 & H). injection H1 as <- <-.
  apply bind_Ok in H as (items & s1 & H1 & H). injection H1 as Hit <-.
  destruct (for_each_trace (pass_state cfg reg model "models") _ _ items
              (fun item => perModel_item_Ok (fo_output pm) src pm item)
              s s' HP H) as (HP' & LL & Hw & HF).
  split; [done|]. exists (concat LL). split; [done|]. exists src, items. split; [done|].
  by apply Forall2_concat_singletons.
Qed.

End PerModel.

(** X4.  What the perModel pass does: for every fan-out spec in turn and every
    item of the models collection as it was when the pass started, one
    file, rendered against the model whose [models] field is the list of
    the effective item alone. *)
Lemma perModel_files E outputDir0 subDir configName s s' specs model :
  st_model s = Some model → perModel (st_config s) = Some specs →
  perModel_pass E outputDir0 subDir configName s = (Ok tt, s') →
  ∃ LL, st_written s' = st_written s ++ concat LL ∧
    Forall2 (fun pm L =>
               ∃ template items, iterate (clone (field model "models")) = Ok items ∧
                 Forall2 (fun item e =>
                            rendered E (st_registry s) outputDir0 subDir
                              (fo_output pm) template
                              (VObj (<["models" := VArr [VObj (effective_model item pm)]]>
                                       model)) e)
                   items L)
      specs LL.
Proof.
  intros Hm Hspecs H. unfold perModel_pass, get_config in H.
  apply bind_Ok in H as (c & s1 & H1 & H). injection H1 as <- <-.
  rewrite Hspecs in H.
  apply bind_Ok in H as (m & s1 & H1 & H). apply get_model_Ok in H1 as [-> Hm'].
  assert (m = model) as -> by congruence.
  assert (pass_state (st_config s) (st_registry s) model "models" s) as HP
    by by apply pass_state_start.
  destruct (for_each_trace _ _ _ specs
              (perModel_spec_Ok E outputDir0 subDir configName (st_config s)
                 (st_registry s) model (clone (field model "models")))
              s s' HP H) as (_ & LL & Hw & HF).
  exists LL. split; [done|]. exact HF.
Qed.

(** * More of the engine *)

(** ** The other passes *)

(** What a loop writes, when each turn writes what [Rel] says of the
    state it leaves, and [Rel] holds on along [R]. *)
Lemma for_each_trace_along {A} (P : State → Prop) (R : relation State) `{!PreOrder R}
    (Rel : A → State → list (path * string) → Prop)
    (body : A → M unit) (l : list A) :
  (∀ x s s' L, Rel x s L → R s s' → Rel x s' L) →
  (∀ x s s', P s → body x s = (Ok tt, s') →
             P s' ∧ R s s' ∧ ∃ L, st_written s' = st_written s ++ L ∧ Rel x s' L) →
  ∀ s s', P s → for_each l body s = (Ok tt, s') →
          P s' ∧ R s s' ∧
          ∃ LL, st_written s' = st_written s ++ concat LL ∧
                Forall2 (fun x L => Rel x s' L) l LL.
Proof.
  intros Hmono Hbody. induction l as [|x l IH]; intros s s' HP H.
  - injection H as <-. split; [done|]. split; [reflexivity|].
    exists []. by rewrite app_nil_r.
  - apply for_each_cons_Ok in H as (s1 & Hx & Hl).
    destruct (Hbody x s s1 HP Hx) as (HP1 & HR1 & L & HwL & HR).
    destruct (IH s1 s' HP1 Hl) as (HP' & HR' & LL & HwLL & HF).
    split; [done|]. split; [by etrans|].
    exists (L :: LL). split; [rewrite HwLL, HwL; simpl; by rewrite app_assoc|].
    constructor; [by eapply Hmono | done].
Qed.

#[local] Instance dirs_grow_preorder : PreOrder dirs_grow.
Proof.
  split; [intros s; unfold dirs_grow; done|].
  intros s1 s2 s3 H12 H23. unfold dirs_grow in *. by etrans.
Qed.

Lemma ancestors_self (p : path) : p ≠ [] → p ∈ ancestors p.
Proof.
  induction p as [|seg rest IH]; [done|]. intros _. simpl.
  destruct rest as [|seg' rest']; [by left|].
  right. apply list_elem_of_fmap. exists (seg' :: rest'). split; [done|]. by apply IH.
Qed.

Lemma mkdirp_is_dir p fs fs' : mkdirp p fs = Ok fs' → is_dir p fs' = true.
Proof.
  intros ->%mkdirp_Ok. unfold is_dir. apply bool_decide_eq_true. simpl.
  destruct (decide (p = [])) as [->|Hne]; [by left | right].
  apply elem_of_union. left. apply elem_of_list_to_set. by apply ancestors_self.
Qed.

Lemma ff_mkdirp_sync_Ok E p s s' :
  ff_mkdirp_sync E p s = (Ok tt, s') →
  ∃ fs', mkdirp (at_path E p) (st_fs s) = Ok fs' ∧ s' = with_fs fs' s.
Proof.
  unfold ff_mkdirp_sync. destruct (mkdirp _ _) as [fs'|e]; [|done].
  intros [= <-]. eauto.
Qed.

Lemma dirs_grow_mkdirp p fs fs' : mkdirp p fs = Ok fs' → dirs fs ⊆ dirs fs'.
Proof. intros ->%mkdirp_Ok. simpl. set_solver. Qed.

Lemma dirs_grow_write p c fs fs' : writeFileSync p c fs = Ok fs' → dirs fs' = dirs fs.
Proof. by intros ->%writeFileSync_Ok. Qed.

Section PerPath.

Context (E : Env) (outputDir0 subDir configName : string).
Context (cfg : Config) (reg : Registry) (model : obj).

Lemma rendered_in_dir_along fnTemplate template ctx s s' e :
  rendered_in_dir E reg outputDir0 subDir fnTemplate template ctx (st_fs s) e →
  dirs_grow s s' →
  rendered_in_dir E reg outputDir0 subDir fnTemplate template ctx (st_fs s') e.
Proof.
  intros (filename & content & Hfn & Hc & -> & Hd) Hg.
  exists filename, content. repeat split; try done. by eapply is_dir_mono.
Qed.

Lemma perPath_item_Ok pa fnTemplate template toplevel pat s s' :
  pass_fixed cfg reg model s →
  perPath_item E outputDir0 subDir pa fnTemplate template toplevel pat s = (Ok tt, s') →
  pass_fixed cfg reg model s' ∧ dirs_grow s s' ∧
  ∃ L, st_written s' = st_written s ++ L ∧
    ∃ e, L = [e] ∧
      rendered_in_dir E reg outputDir0 subDir fnTemplate template
        (VObj (item_context (defaults cfg) pa toplevel pat)) (st_fs s') e.
Proof.
  intros HP H. unfold perPath_item, get_config in H.
  apply bind_Ok in H as (c & s1 & H1 & H). injection H1 as <- <-.
  apply bind_Ok in H as (filename & s1 & H1 & H). apply call_template_Ok in H1 as [-> Hfn].
  apply bind_Ok in H as ([] & s1 & H1 & H).
  apply ff_mkdirp_sync_Ok in H1 as (fs1 & Hmk & ->).
  apply bind_Ok in H as (content & s1 & H1 & H). apply call_template_Ok in H1 as [-> Hc].
  apply ff_createFile_Ok in H as (fs' & Hw & ->).
  destruct HP as (Hcfg & Hreg & Hm). simpl in *. rewrite Hcfg, Hreg in *.
  split; [done|]. split.
  { unfold dirs_grow. simpl. rewrite (dirs_grow_write _ _ _ _ Hw).
    by eapply dirs_grow_mkdirp. }
  eexists. split; [reflexivity|]. eexists. split; [reflexivity|].
  exists filename, content. repeat split; try done.
  eapply is_dir_mono; [|by eapply mkdirp_is_dir].
  by rewrite (dirs_grow_write _ _ _ _ Hw).
Qed.

Lemma perPath_spec_Ok toplevel pa s s' :
  pass_fixed cfg reg model s →
  perPath_spec E outputDir0 subDir configName toplevel pa s = (Ok tt, s') →
  pass_fixed cfg reg model s' ∧ dirs_grow s s' ∧
  ∃ L, st_written s' = st_written s ++ L ∧
    ∃ template paths,
      match get_prop (field model "apiInfo") "paths" with
      | Ok coll => iterate coll
      | Throw e => Throw e
      end = Ok paths ∧
      Forall2 (fun pat e =>
                 rendered_in_dir E reg outputDir0 subDir (fo_output pa) template
                   (VObj (item_context (defaults cfg) pa toplevel pat)) (st_fs s') e)
        paths L.
Proof.
  intros HP H. unfold perPath_spec, get_config in H.
  apply bind_Ok in H as (fn & s1 & H1 & H). injection H1 as <- <-.
  apply bind_Ok in H as (c & s1 & H1 & H). injection H1 as <- <-.
  apply bind_Ok in H as (src & s1 & H1 & H). apply ff_readFileSync_Ok in H1 as [-> _].
  apply bind_Ok in H as (template & s1 & H1 & H). injection H1 as <- <-.
  apply bind_Ok in H as (paths & s1 & H1 & H).
  apply api_collection_Ok in H1 as (-> & m & Hm & Hpaths).
  assert (m = model) as -> by (destruct HP as (_ & _ & HP); congruence).
  destruct (for_each_trace_along (pass_fixed cfg reg model) dirs_grow
              (fun pat s L => ∃ e, L = [e] ∧
                 rendered_in_dir E reg outputDir0 subDir (fo_output pa) src
                   (VObj (item_context (defaults cfg) pa toplevel pat)) (st_fs s) e)
              (perPath_item E outputDir0 subDir pa (fo_output pa) src toplevel) paths)
      with (s := s) (s' := s') as (HP' & HR & LL & Hw & HF); try done.
  - intros pat s1 s2 L (e & -> & He) Hg. exists e. split; [done|].
    by eapply rendered_in_dir_along.
  - intros pat s1 s2 HP1 H1. by apply perPath_item_Ok.
  - split; [done|]. split; [done|]. exists (concat LL). split; [done|].
    exists src, paths. split; [done|]. by apply Forall2_concat_singletons.
Qed.

End PerPath.

(** X1.  A completed perPath pass writes, for every fan-out spec in turn
    and every item of [apiInfo.paths] in turn, one file, rendered against
    the context merged as in perApi; and the directory of every rendered
    name has been made and is there when the pass ends. *)
Theorem perPath_files E outputDir0 subDir configName s s' specs model :
  st_model s = Some model → perPath (st_config s) = Some specs →
  perPath_pass E outputDir0 subDir configName s = (Ok tt, s') →
  ∃ LL, st_written s' = st_written s ++ concat LL ∧
    Forall2 (fun pa L =>
               ∃ template paths, paths_of model = Ok paths ∧
                 Forall2 (fun pat e =>
                            rendered_in_dir E (st_registry s) outputDir0 subDir
                              (fo_output pa) template
                              (VObj (item_context (defaults (st_config s)) pa
                                       (delete "apiInfo" model) pat))
                              (st_fs s') e)
                   paths L)
      specs LL.
Proof.
  intros Hm Hspecs H. unfold perPath_pass, get_config in H.
  apply bind_Ok in H as (c & s1 & H1 & H). injection H1 as <- <-.
  rewrite Hspecs in H.
  apply bind_Ok in H as (m & s1 & H1 & H). apply get_model_Ok in H1 as [-> Hm'].
  assert (m = model) as -> by congruence.
  assert (pass_fixed (st_config s) (st_registry s) model s) as HP by done.
  destruct (for_each_trace_along (pass_fixed (st_config s) (st_registry s) model) dirs_grow
              (fun pa s1 L =>
                 ∃ template paths, paths_of model = Ok paths ∧
                   Forall2 (fun pat e =>
                              rendered_in_dir E (st_registry s) outputDir0 subDir
                                (fo_output pa) template
                                (VObj (item_context (defaults (st_config s)) pa
                                         (toplevel_of model) pat))
                                (st_fs s1) e)
                     paths L)
              (perPath_spec E outputDir0 subDir configName (toplevel_of model)) specs)
      with (s := s) (s' := s') as (_ & _ & LL & Hw & HF); try done.
  - intros pa s1 s2 L (template & paths & Hp & HF) Hg. exists template, paths.
    split; [done|]. eapply Forall2_impl; [exact HF|]. intros pat e He.
    eapply rendered_in_dir_along; [exact He | exact Hg].
  - intros pa s1 s2 HP1 H1.
    by apply (perPath_spec_Ok E outputDir0 subDir configName _ _ model).
  - exists LL. split; [done|]. exact HF.
Qed.

Lemma perPath_files_witness :
  ∃ LL, st_written (perPath_pass Bench.env "./out/" "md" "md" BenchPaths.state).2
        = concat LL ∧ length LL = 1%nat.
Proof.
  destruct (perPath_files Bench.env "./out/" "md" "md" BenchPaths.state
              (perPath_pass Bench.env "./out/" "md" "md" BenchPaths.state).2
              [BenchPaths.path_spec] BenchPaths.model eq_refl eq_refl
              ltac:(vm_compute; reflexivity)) as (LL & Hw & HF).
  exists LL. split; [exact Hw|]. by rewrite <- (Forall2_length _ _ _ HF).
Defined.

(** The perPath run of [BenchPaths]: the directories [pets] and
    [store/orders] are made on the way. *)
Example perPath_run :
  st_written (perPath_pass Bench.env "./out/" "md" "md" BenchPaths.state).2 =
    [(["home"; "out"; "md"; "pets"; "list.md"], "List pets");
     (["home"; "out"; "md"; "store"; "orders"; "buy.md"], "Buy")] ∧
  is_dir ["home"; "out"; "md"; "store"; "orders"]
    (st_fs (perPath_pass Bench.env "./out/" "md" "md" BenchPaths.state).2) = true.
Proof. split; vm_compute; reflexivity. Qed.

(** X2.  A completed perApi pass writes, for every fan-out spec, as many
    files as [apiInfo.apis] has items. *)
Theorem perApi_cardinality E outputDir0 subDir configName s s' specs model :
  st_model s = Some model → perApi (st_config s) = Some specs →
  perApi_pass E outputDir0 subDir configName s = (Ok tt, s') →
  ∃ LL, st_written s' = st_written s ++ concat LL ∧
    Forall2 (fun _ L => ∃ apis, apis_of model = Ok apis ∧ length L = length apis)
      specs LL ∧
    ∀ apis, apis_of model = Ok apis →
            length (st_written s') = length (st_written s) + length specs * length apis.
Proof.
  intros Hm Hspecs H. unfold perApi_pass, get_config in H.
  apply bind_Ok in H as (c & s1 & H1 & H). injection H1 as <- <-.
  rewrite Hspecs in H.
  apply bind_Ok in H as (m & s1 & H1 & H). apply get_model_Ok in H1 as [-> Hm'].
  assert (m = model) as -> by congruence.
  assert (pass_fixed (st_config s) (st_registry s) model s) as HP by done.
  destruct (for_each_trace _ _ _ specs
              (perApi_spec_Ok E outputDir0 subDir configName (st_config s) (st_registry s)
                 model (toplevel_of model))
              s s' HP H) as (_ & LL & Hw & HF).
  assert (Forall2 (fun (_ : FanOutSpec) L =>
                     ∃ apis, apis_of model = Ok apis ∧ length L = length apis) specs LL)
    as HF'.
  { eapply Forall2_impl; [exact HF|]. intros pa L (template & apis & Ha & HL).
    exists apis. split; [done|]. by rewrite (Forall2_length _ _ _ HL). }
  exists LL. split; [done|]. split; [done|].
  intros apis Hapis. rewrite Hw, length_app. f_equal.
  clear -HF' Hapis. induction HF' as [|pa L specs LL (apis' & Ha & HL) _ IH]; [done|].
  simpl. rewrite length_app, IH, HL. congruence.
Qed.

Lemma perApi_cardinality_witness :
  length (st_written (perApi_pass Bench.env "./out/" "go" "go" Bench.state).2) = 2%nat.
Proof.
  destruct (perApi_cardinality Bench.env "./out/" "go" "go" Bench.state
              (perApi_pass Bench.env "./out/" "go" "go" Bench.state).2
              [Bench.api_spec] Bench.petstore eq_refl eq_refl
              ltac:(vm_compute; reflexivity)) as (_ & _ & _ & H).
  apply (H [Bench.pets; Bench.store]). reflexivity.
Defined.

(** *** The whole-output pass *)

Lemma render_action_Ok E outputDir0 subDir cfg reg model action s s' :
  pass_fixed cfg reg model s →
  render_action E outputDir0 subDir action s = (Ok tt, s') →
  pass_fixed cfg reg model s' ∧
  ∃ L, st_written s' = st_written s ++ L ∧
    ∃ e, L = [e] ∧
      ∃ template, tx_template action = Some template ∧
        rendered E reg outputDir0 subDir (tx_output action) template (VObj model) e.
Proof.
  intros (Hcfg & Hreg & Hm) H. unfold render_action in H.
  apply bind_Ok in H as (fn & s1 & H1 & H). injection H1 as <- <-.
  apply bind_Ok in H as (template & s1 & H1 & H).
  destruct (tx_template action) as [t|] eqn:Ht; [|done]. injection H1 as <- <-.
  apply bind_Ok in H as (m & s1 & H1 & H). apply get_model_Ok in H1 as [-> Hm'].
  assert (m = model) as -> by congruence.
  apply bind_Ok in H as (filename & s1 & H1 & H). apply call_template_Ok in H1 as [-> Hfn].
  apply bind_Ok in H as (content & s1 & H1 & H). apply call_template_Ok in H1 as [-> Hc].
  apply ff_createFile_Ok in H as (fs' & Hw & ->). rewrite Hreg in *.
  split; [done|]. eexists. split; [reflexivity|]. eexists. split; [reflexivity|].
  exists t. split; [done|]. exists filename, content. done.
Qed.

(** X3.  A completed whole-output pass writes one file for every entry,
    in order, the output and body templates both rendered against the
    full model; it completes only when every entry has a template, loaded
    from its input or set beforehand. *)
Theorem whole_output_files E outputDir0 subDir actions s s' model :
  st_model s = Some model →
  whole_output E outputDir0 subDir actions s = (Ok tt, s') →
  ∃ L, st_written s' = st_written s ++ L ∧
    Forall2 (fun action e =>
               ∃ template, tx_template action = Some template ∧
                 rendered E (st_registry s) outputDir0 subDir (tx_output action) template
                   (VObj model) e)
      actions L.
Proof.
  intros Hm H. unfold whole_output in H.
  assert (pass_fixed (st_config s) (st_registry s) model s) as HP by done.
  destruct (for_each_trace _ _ _ actions
              (render_action_Ok E outputDir0 subDir (st_config s) (st_registry s) model)
              s s' HP H) as (_ & LL & Hw & HF).
  exists (concat LL). split; [done|]. by apply Forall2_concat_singletons.
Qed.

Lemma whole_output_files_witness :
  ∃ L, st_written
         (whole_output Bench.env "./out/" "go"
            [mkTransformation (Some "readme.tpl") "README.md" (Some "README")]
            Bench.state).2 = L ∧ length L = 1%nat.
Proof.
  destruct (whole_output_files Bench.env "./out/" "go"
              [mkTransformation (Some "readme.tpl") "README.md" (Some "README")]
              Bench.state
              (whole_output Bench.env "./out/" "go"
                 [mkTransformation (Some "readme.tpl") "README.md" (Some "README")]
                 Bench.state).2
              Bench.petstore eq_refl ltac:(vm_compute; reflexivity)) as (L & Hw & HF).
  exists L. split; [exact Hw|]. by rewrite <- (Forall2_length _ _ _ HF).
Defined.

(** An entry with neither input nor template stops the pass at
    [Handlebars.compile], with nothing written for it. *)
Lemma render_action_without_template E outputDir0 subDir action s :
  tx_template action = None →
  ∃ msg, render_action E outputDir0 subDir action s = (Throw (HandlebarsException msg), s).
Proof. intros H. unfold render_action. rewrite bind_unfold. simpl. rewrite H. eauto. Qed.

(** *** After the perModel pass *)

Lemma perModel_items_model E outputDir0 subDir fnTemplate template pm items :
  ∀ s s' m, st_model s = Some m →
    for_each items (perModel_item E outputDir0 subDir fnTemplate template pm) s = (Ok tt, s') →
    st_model s' =
      Some (match last items with
            | Some item => <["models" := VArr [VObj (effective_model item pm)]]> m
            | None => m
            end).
Proof.
  induction items as [|item items IH]; intros s s' m Hm H.
  - by injection H as <-.
  - apply for_each_cons_Ok in H as (s1 & Hitem & Hrest).
    unfold perModel_item in Hitem.
    apply bind_Ok in Hitem as ([] & s2 & H1 & Hitem).
    apply set_model_field_Ok in H1 as (m0 & Hm0 & ->).
    assert (m0 = m) as -> by congruence.
    apply bind_Ok in Hitem as (outer & s2 & H1 & Hitem). apply get_model_Ok in H1 as [-> _].
    apply bind_Ok in Hitem as (fn & s2 & H1 & Hitem). apply call_template_Ok in H1 as [-> _].
    apply bind_Ok in Hitem as (c & s2 & H1 & Hitem). apply call_template_Ok in H1 as [-> _].
    apply ff_createFile_Ok in Hitem as (fs' & _ & ->).
    rewrite last_cons.
    set (m1 := <["models" := VArr [VObj (effective_model item pm)]]> m) in *.
    assert (st_model s' =
              Some (match last items with
                    | Some item' => <["models" := VArr [VObj (effective_model item' pm)]]> m1
                    | None => m1
                    end)) as ->
      by (eapply IH; [|exact Hrest]; reflexivity).
    subst m1. destruct (last items); [by rewrite insert_insert_eq | done].
Qed.

Lemma perModel_specs_model E outputDir0 subDir configName cModels items specs :
  iterate cModels = Ok items →
  ∀ s s' m, st_model s = Some m →
    for_each specs (perModel_spec E outputDir0 subDir configName cModels) s = (Ok tt, s') →
    st_model s' =
      Some (match last specs, last items with
            | Some pm, Some item => <["models" := VArr [VObj (effective_model item pm)]]> m
            | _, _ => m
            end).
Proof.
  intros Hit. induction specs as [|pm specs IH]; intros s s' m Hm H.
  - by injection H as <-.
  - apply for_each_cons_Ok in H as (s1 & Hspec & Hrest).
    unfold perModel_spec, get_config in Hspec.
    apply bind_Ok in Hspec as (fn & s2 & H1 & Hspec). injection H1 as <- <-.
    apply bind_Ok in Hspec as (c & s2 & H1 & Hspec). injection H1 as <- <-.
    apply bind_Ok in Hspec as (src & s2 & H1 & Hspec). apply ff_readFileSync_Ok in H1 as [-> _].
    apply bind_Ok in Hspec as (t & s2 & H1 & Hspec). injection H1 as <- <-.
    apply bind_Ok in Hspec as (items' & s2 & H1 & Hspec). injection H1 as H1 <-.
    assert (items' = items) as -> by congruence.
    pose proof (perModel_items_model _ _ _ _ _ _ _ _ _ _ Hm Hspec) as Hm1.
    rewrite (IH _ _ _ Hm1 Hrest). rewrite last_cons.
    destruct (last specs) as [pm'|], (last items) as [item|]; try done.
    by rewrite insert_insert_eq.
Qed.

(** X5.  The perModel pass leaves its scratch in the model: after a
    completed pass with at least one spec, the [models] field of the
    model is no longer the collection but the list of one effective item,
    the last item under the last spec; when the collection is empty the
    model is as it was. *)
Theorem perModel_leaves_last_item E outputDir0 subDir configName s s' specs pm model :
  st_model s = Some model → perModel (st_config s) = Some specs → last specs = Some pm →
  perModel_pass E outputDir0 subDir configName s = (Ok tt, s') →
  ∃ items, iterate (clone (field model "models")) = Ok items ∧
    st_model s' =
      Some (match last items with
            | Some item => <["models" := VArr [VObj (effective_model item pm)]]> model
            | None => model
            end).
Proof.
  intros Hm Hspecs Hlast H. unfold perModel_pass, get_config in H.
  apply bind_Ok in H as (c & s1 & H1 & H). injection H1 as <- <-.
  rewrite Hspecs in H.
  apply bind_Ok in H as (m & s1 & H1 & H). apply get_model_Ok in H1 as [-> Hm'].
  assert (m = model) as -> by congruence.
  destruct (iterate (clone (field model "models"))) as [items|e] eqn:Hit.
  - exists items. split; [done|].
    rewrite (perModel_specs_model _ _ _ _ _ _ _ Hit _ _ _ Hm H), Hlast. done.
  - destruct specs as [|pm0 specs]; [done|].
    apply for_each_cons_Ok in H as (s1 & Hspec & _).
    unfold perModel_spec, get_config in Hspec.
    apply bind_Ok in Hspec as (fn & s2 & H1 & Hspec). injection H1 as <- <-.
    apply bind_Ok in Hspec as (c & s2 & H1 & Hspec). injection H1 as <- <-.
    apply bind_Ok in Hspec as (src & s2 & H1 & Hspec). apply ff_readFileSync_Ok in H1 as [-> _].
    apply bind_Ok in Hspec as (t & s2 & H1 & Hspec). injection H1 as <- <-.
    apply bind_Ok in Hspec as (items' & s2 & H1 & Hspec). injection H1 as H1 <-.
    congruence.
Qed.

Lemma perModel_leaves_last_item_witness :
  st_model (perModel_pass Bench.env "./out/" "go" "go" Bench.state).2 =
  Some (<["models" := VArr [VObj (effective_model Bench.pet Bench.model_spec)]]>
          Bench.petstore).
Proof.
  destruct (perModel_leaves_last_item Bench.env "./out/" "go" "go" Bench.state
              (perModel_pass Bench.env "./out/" "go" "go" Bench.state).2
              [Bench.model_spec] Bench.model_spec Bench.petstore eq_refl eq_refl eq_refl
              ltac:(vm_compute; reflexivity)) as (items & Hit & Hm).
  injection Hit as <-. exact Hm.
Defined.

Lemma perModel_files_witness :
  ∃ LL, st_written (perModel_pass Bench.env "./out/" "go" "go" Bench.state).2
        = concat LL ∧ length LL = 1%nat.
Proof.
  destruct (perModel_files Bench.env "./out/" "go" "go" Bench.state
              (perModel_pass Bench.env "./out/" "go" "go" Bench.state).2
              [Bench.model_spec] Bench.petstore eq_refl eq_refl
              ltac:(vm_compute; reflexivity)) as (LL & Hw & HF).
  exists LL. split; [exact Hw|]. by rewrite <- (Forall2_length _ _ _ HF).
Defined.

(** *** A model without its collections *)

Lemma bind_Ok_eq {A B} (m : M A) (k : A → M B) s a s1 :
  m s = (Ok a, s1) → (m ≫= k) s = k a s1.
Proof. intros Hm. by rewrite bind_unfold, Hm. Qed.

Lemma bind_Throw_eq {A B} (m : M A) (k : A → M B) s e s1 :
  m s = (Throw e, s1) → (m ≫= k) s = (Throw e, s1).
Proof. intros Hm. by rewrite bind_unfold, Hm. Qed.

Lemma api_collection_missing k s m :
  st_model s = Some m → m !! "apiInfo" = None →
  api_collection k s =
    (Throw (TypeError ("Cannot read properties of undefined (reading '" +:+ k +:+ "')")), s).
Proof.
  intros Hm Ha. unfold api_collection, get_model.
  rewrite bind_unfold, Hm. unfold field. rewrite Ha. reflexivity.
Qed.

Lemma read_then_throw E p (k : string → M unit) s e :
  (∀ src, k src s = (Throw e, s)) → ∃ e', (ff_readFileSync E p ≫= k) s = (Throw e', s).
Proof.
  intros Hk. rewrite bind_unfold. unfold ff_readFileSync.
  destruct (readFileSync _ _) as [src|e']; [rewrite Hk|]; eauto.
Qed.

Section Missing.

Context (E : Env) (outputDir0 subDir configName : string).
Context (s : State) (m : obj) (Hm : st_model s = Some m).

Lemma perApi_spec_missing toplevel pa :
  m !! "apiInfo" = None →
  ∃ e, perApi_spec E outputDir0 subDir configName toplevel pa s = (Throw e, s).
Proof.
  intros Ha. unfold perApi_spec, get_config.
  erewrite bind_Ok_eq by reflexivity. erewrite bind_Ok_eq by reflexivity. simpl.
  eapply read_then_throw. intros src.
  erewrite bind_Ok_eq by reflexivity.
  erewrite bind_Throw_eq by (eapply api_collection_missing; eassumption). reflexivity.
Qed.

Lemma perPath_spec_missing toplevel pa :
  m !! "apiInfo" = None →
  ∃ e, perPath_spec E outputDir0 subDir configName toplevel pa s = (Throw e, s).
Proof.
  intros Ha. unfold perPath_spec, get_config.
  erewrite bind_Ok_eq by reflexivity. erewrite bind_Ok_eq by reflexivity. simpl.
  eapply read_then_throw. intros src.
  erewrite bind_Ok_eq by reflexivity.
  erewrite bind_Throw_eq by (eapply api_collection_missing; eassumption). reflexivity.
Qed.

Lemma perModel_spec_missing pa :
  m !! "models" = None →
  ∃ e, perModel_spec E outputDir0 subDir configName (clone (field m "models")) pa s
       = (Throw e, s).
Proof.
  intros Ha. unfold perModel_spec, get_config.
  erewrite bind_Ok_eq by reflexivity. erewrite bind_Ok_eq by reflexivity. simpl.
  eapply read_then_throw. intros src.
  erewrite bind_Ok_eq by reflexivity.
  unfold field, clone. rewrite Ha. reflexivity.
Qed.

End Missing.



(** ** Before the clean *)

(** *** The templates of the whole-output pass *)

Section LoadActions.

Context (E : Env) (configName : string).

Lemma load_template_Ok t s s' :
  load_template E configName t s = (Ok tt, s') →
  st_fs s' = st_fs s ∧ templateDir (st_config s') = templateDir (st_config s) ∧
  match transformations (st_config s) !! t with
  | Some tx =>
      ∃ tx', loaded E (templateDir (st_config s)) configName (st_fs s) tx tx' ∧
             transformations (st_config s') = <[t := tx']> (transformations (st_config s))
  | None => s' = s
  end.
Proof.
  unfold load_template, get_config. intros H.
  apply bind_Ok in H as (c & s1 & H1 & H). injection H1 as <- <-.
  destruct (transformations (st_config s) !! t) as [tx|] eqn:Ht.
  - unfold loaded. destruct (truthy_str (tx_input tx)) eqn:Hin.
    + apply bind_Ok in H as (src & s1 & H1 & H).
      apply ff_readFileSync_Ok in H1 as [-> Hread]. injection H as <-. simpl.
      split; [done|]. split; [done|]. exists (set_template src tx). eauto.
    + injection H as <-. split; [done|]. split; [done|]. exists tx.
      split; [done|]. by rewrite list_insert_id.
  - by injection H as <-.
Qed.

Lemma load_templates_Ok todo : ∀ done s s',
  transformations (st_config s) = done ++ todo →
  for_each (seq (length done) (length todo)) (load_template E configName) s = (Ok tt, s') →
  st_fs s' = st_fs s ∧ templateDir (st_config s') = templateDir (st_config s) ∧
  ∃ todo', transformations (st_config s') = done ++ todo' ∧
           Forall2 (loaded E (templateDir (st_config s)) configName (st_fs s)) todo todo'.
Proof.
  induction todo as [|tx todo IH]; intros done s s' Hts H.
  - injection H as <-. split; [done|]. split; [done|]. exists []. split; [done | constructor].
  - simpl in H. apply bind_Ok in H as ([] & s1 & H1 & H).
    apply load_template_Ok in H1 as (Hfs & Htd & Hstep).
    rewrite Hts, list_lookup_middle in Hstep by done.
    destruct Hstep as (tx' & Hl & Hts1).
    rewrite <- (Nat.add_0_r (length done)) in Hts1 at 1.
    rewrite insert_app_r in Hts1. simpl in Hts1.
    rewrite (cons_middle tx' done todo), app_assoc in Hts1.
    replace (S (length done)) with (length (done ++ [tx'])) in H
      by (rewrite length_app; simpl; lia).
    destruct (IH _ _ _ Hts1 H) as (Hfs' & Htd' & todo' & Hts' & HF).
    split; [congruence|]. split; [congruence|].
    exists (tx' :: todo'). split; [by rewrite Hts', <- app_assoc|].
    constructor; [done|]. by rewrite Hfs, Htd in HF.
Qed.

(** X7.  When the templates of the whole-output pass are loaded, the
    entries of [config.transformations] that have an input get, as their
    [template], the text of the input file under the template location
    (over a template set beforehand); the entries without input stay as
    they are; and the actions of the pass are these same entries, in
    order.  A missing input file makes the loading throw. *)
Theorem load_actions_templates s s' actions :
  load_actions E configName s = (Ok actions, s') →
  actions = transformations (st_config s') ∧
  st_fs s' = st_fs s ∧
  Forall2 (loaded E (templateDir (st_config s)) configName (st_fs s))
    (transformations (st_config s)) actions.
Proof.
  unfold load_actions, get_config. intros H.
  apply bind_Ok in H as (c & s1 & H1 & H). injection H1 as <- <-.
  apply bind_Ok in H as ([] & s1 & H1 & H). injection H as <- <-.
  destruct (load_templates_Ok (transformations (st_config s)) [] s s1 eq_refl H1)
    as (Hfs & _ & todo' & Hts & HF).
  split; [done|]. split; [done|]. by rewrite Hts.
Qed.

End LoadActions.

Lemma load_actions_Ok_actions E configName verbose gen s s' actions :
  prepare E configName verbose gen s = (Ok actions, s') →
  actions = transformations (st_config s').
Proof.
  unfold prepare. intros H.
  apply bind_Ok in H as ([] & s1 & _ & H). apply bind_Ok in H as ([] & s2 & _ & H).
  apply bind_Ok in H as ([] & s3 & _ & H).
  by apply load_actions_templates in H as (-> & _).
Qed.

Lemma load_actions_templates_witness :
  (load_actions Bench.env "go" Bench.state).1 =
  Ok [mkTransformation (Some "readme.tpl") "README.md" (Some "README")].
Proof.
  destruct (load_actions Bench.env "go" Bench.state) as [[actions|e] s'] eqn:H;
    [|vm_compute in H; discriminate].
  destruct (load_actions_templates Bench.env "go" Bench.state s' actions H) as (-> & _ & _).
  assert ((load_actions Bench.env "go" Bench.state).2 = s') as <- by by rewrite H.
  vm_compute. reflexivity.
Defined.

(** *** Partials *)

Section Partials.

Context (E : Env) (configName : string).

Lemma register_partial_Ok name file s s' :
  (config ← get_config;
   src ← ff_readFileSync E (tpl E (templateDir config) [configName; file]);
   registerPartial name src) s = (Ok tt, s') →
  ∃ src, files (st_fs s) !! at_path E (tpl E (templateDir (st_config s)) [configName; file])
           = Some src ∧
         s' = with_registry (mkRegistry (helpers (st_registry s))
                               (<[name := src]> (partials_reg (st_registry s)))) s.
Proof.
  unfold get_config. intros H.
  apply bind_Ok in H as (c & s1 & H1 & H). injection H1 as <- <-.
  apply bind_Ok in H as (src & s1 & H1 & H). apply ff_readFileSync_Ok in H1 as [-> Hread].
  injection H as <-. eauto.
Qed.

Lemma register_partials_loop l : ∀ s s',
  NoDup l.*1 →
  for_each l (fun '(p, partial) =>
    config ← get_config;
    src ← ff_readFileSync E (tpl E (templateDir config) [configName; partial]);
    registerPartial p src) s = (Ok tt, s') →
  st_fs s' = st_fs s ∧ st_config s' = st_config s ∧
  helpers (st_registry s') = helpers (st_registry s) ∧
  (∀ name file, (name, file) ∈ l →
     ∃ src, files (st_fs s) !! at_path E (tpl E (templateDir (st_config s)) [configName; file])
              = Some src ∧
            partials_reg (st_registry s') !! name = Some src) ∧
  (∀ name, name ∉ l.*1 →
     partials_reg (st_registry s') !! name = partials_reg (st_registry s) !! name).
Proof.
  induction l as [|[name file] l IH]; intros s s' Hnd H.
  - injection H as <-. repeat split; try done. intros ? ? Hin. by apply elem_of_nil in Hin.
  - apply NoDup_cons in Hnd as [Hfresh Hnd].
    apply for_each_cons_Ok in H as (s1 & Hx & Hl).
    apply register_partial_Ok in Hx as (src & Hread & ->).
    destruct (IH _ _ Hnd Hl) as (Hfs & Hcfg & Hh & Hin & Hout). simpl in *.
    split; [done|]. split; [done|]. split; [done|]. split.
    + intros n f Hnf. apply elem_of_cons in Hnf as [[= -> ->]|Hnf].
      * exists src. split; [done|]. rewrite Hout by done. apply lookup_insert_eq.
      * by apply Hin.
    + intros n Hn. apply not_elem_of_cons in Hn as [Hne Hn].
      rewrite Hout by done. by apply lookup_insert_ne.
Qed.

(** X8.  When the partials are registered, every name of
    [config.partials] is registered with the text of its file under the
    template location; the partials registered under other names, the
    helpers, the configuration and the filesystem are as they were. *)
Theorem register_partials_registers s s' :
  NoDup (partials (st_config s)).*1 →
  register_partials E configName s = (Ok tt, s') →
  st_fs s' = st_fs s ∧ st_config s' = st_config s ∧
  helpers (st_registry s') = helpers (st_registry s) ∧
  (∀ name file, (name, file) ∈ partials (st_config s) →
     ∃ src, files (st_fs s) !! at_path E (tpl E (templateDir (st_config s)) [configName; file])
              = Some src ∧
            partials_reg (st_registry s') !! name = Some src) ∧
  (∀ name, name ∉ (partials (st_config s)).*1 →
     partials_reg (st_registry s') !! name = partials_reg (st_registry s) !! name).
Proof.
  intros Hnd H. unfold register_partials, get_config in H.
  apply bind_Ok in H as (c & s1 & H1 & H). injection H1 as <- <-.
  by apply register_partials_loop.
Qed.

End Partials.

Lemma register_partials_registers_witness :
  partials_reg (st_registry (register_partials Bench.env "md" BenchPartials.state).2)
    !! "header" = Some "# {{title}}".
Proof.
  destruct (register_partials_registers Bench.env "md" BenchPartials.state
              (register_partials Bench.env "md" BenchPartials.state).2
              ltac:(vm_compute; repeat constructor; set_solver)
              ltac:(vm_compute; reflexivity)) as (_ & _ & _ & Hin & _).
  destruct (Hin "header" "header.tpl" ltac:(by left)) as (src & Hsrc & Hreg).
  rewrite Hreg. vm_compute in Hsrc. symmetry. exact Hsrc.
Defined.

(** *** A failure before the clean *)

(** X9.  When decorating the model, registering the helpers and the
    partials, or loading the whole-output templates throws (no model, a
    missing partial or template file), [main] throws that error with the
    filesystem as it was: the output subdirectory has not been touched,
    nothing has been written, and the completion callback is not
    invoked. *)
Theorem failure_before_clean E o config configName callback fs reg e s1 :
  prepare E configName (truthy (field (defaults config) "verbose")) (run_generator config)
    (initial_state E o config configName fs reg) = (Throw e, s1) →
  main E o config configName callback fs reg = (Throw e, s1) ∧
  st_fs s1 = fs ∧ st_written s1 = [] ∧ st_callbacks s1 = [].
Proof.
  intros H. split; [unfold main, on_transformed; by erewrite bind_Throw_eq|].
  pose proof (prepare_fs E configName (truthy (field (defaults config) "verbose"))
                (run_generator config) (initial_state E o config configName fs reg)) as Hfs.
  pose proof (prepare_written E configName (truthy (field (defaults config) "verbose"))
                (run_generator config) (initial_state E o config configName fs reg)) as Hw.
  assert (preserves (unchanged st_callbacks)
            (prepare E configName (truthy (field (defaults config) "verbose"))
               (run_generator config))) as Hc by preserves_walk reflexivity.
  specialize (Hc (initial_state E o config configName fs reg)).
  rewrite H in Hfs, Hw, Hc. done.
Qed.

Lemma failure_before_clean_witness :
  ∃ e, main Bench.env VNull BenchPartials.config_missing "md" true BenchPartials.disk
         Bench.registry
       = (Throw e,
          (prepare Bench.env "md" false (run_generator BenchPartials.config_missing)
             (initial_state Bench.env VNull BenchPartials.config_missing "md"
                BenchPartials.disk Bench.registry)).2) ∧
       files (st_fs (main Bench.env VNull BenchPartials.config_missing "md" true
                       BenchPartials.disk Bench.registry).2)
         !! ["home"; "out"; "md"; "old.md"] = Some "old".
Proof.
  exists (IOError "ENOENT" ["app"; "templates"; "md"; "footer.tpl"]).
  destruct (failure_before_clean Bench.env VNull BenchPartials.config_missing "md" true
              BenchPartials.disk Bench.registry
              (IOError "ENOENT" ["app"; "templates"; "md"; "footer.tpl"])
              (prepare Bench.env "md" false (run_generator BenchPartials.config_missing)
                 (initial_state Bench.env VNull BenchPartials.config_missing "md"
                    BenchPartials.disk Bench.registry)).2
              ltac:(vm_compute; reflexivity)) as (Hmain & Hfs & _).
  split; [exact Hmain|]. rewrite Hmain. simpl. rewrite Hfs. reflexivity.
Defined.

(** *** Helpers *)

Lemma register_generator_lambdas_Ok verbose gen s s' :
  register_generator_lambdas verbose gen s = (Ok tt, s') →
  s' = with_registry (mkRegistry (generator_helpers gen ∪ helpers (st_registry s))
                        (partials_reg (st_registry s))) s.
Proof.
  unfold register_generator_lambdas, generator_helpers. intros H.
  apply bind_Ok in H as ([] & s1 & H1 & H).
  assert (s1 = s) as ->.
  { destruct verbose; simpl in H1; [|by injection H1].
    apply bind_Ok in H1 as (x & s2 & Hx & H2). unfold lift in Hx.
    injection Hx as _ <-. by injection H2. }
  destruct (truthy gen) eqn:Hg.
  - apply bind_Ok in H as (ls & s1 & Hl & H). unfold lift in Hl. injection Hl as -> <-.
    destruct (truthy ls); simpl in H; injection H as <-; [done|].
    rewrite (left_id_L ∅ (∪)). by destruct s as [? ? ? []].
  - injection H as <-. rewrite (left_id_L ∅ (∪)). by destruct s as [? ? ? []].
Qed.

Lemma after_lambdas_helpers E configName :
  preserves (unchanged (fun s => helpers (st_registry s)))
    (register_partials E configName;; load_actions E configName).
Proof. preserves_walk reflexivity. Qed.

(** X10.  When the preparation completes, the helpers registered with
    Handlebars are the own properties of the generator's [lambdas], when
    there is a generator with [lambdas], over the helpers registered
    before: a generator helper replaces an older helper of the same name
    and every other helper stays. *)
Theorem prepare_registers_helpers E configName verbose gen s s' actions :
  prepare E configName verbose gen s = (Ok actions, s') →
  helpers (st_registry s') = generator_helpers gen ∪ helpers (st_registry s).
Proof.
  unfold prepare. intros H.
  apply bind_Ok in H as ([] & s1 & H1 & H).
  assert (st_registry s1 = st_registry s) as Hr1.
  { unfold attach_generator in H1. apply bind_Ok in H1 as ([] & s0 & H0 & H1).
    apply set_model_field_Ok in H0 as (m & _ & ->).
    unfold attach_lambdas in H1. apply bind_Ok in H1 as (m' & s2 & H2 & H1).
    apply get_model_Ok in H2 as [-> _]. by injection H1 as <-. }
  apply bind_Ok in H as ([] & s2 & H2 & H).
  apply register_generator_lambdas_Ok in H2 as ->.
  pose proof (preserves_Ok _ _ _ _ _ (after_lambdas_helpers E configName) H) as Hh.
  unfold unchanged in Hh. simpl in Hh. by rewrite Hh, Hr1.
Qed.

Lemma prepare_registers_helpers_witness :
  helpers (st_registry (prepare Bench.env "md" false BenchPartials.generator
                          BenchPartials.state).2) !! "upper" = Some (VFun "upper").
Proof.
  destruct (prepare Bench.env "md" false BenchPartials.generator BenchPartials.state)
    as [[actions|e] s'] eqn:H; [|vm_compute in H; discriminate].
  simpl. rewrite (prepare_registers_helpers _ _ _ _ _ _ _ H). reflexivity.
Defined.

#[local] Instance registry_grows_preorder : PreOrder registry_grows.
Proof.
  split; [intros s; split; done|].
  intros s1 s2 s3 [H1 H1'] [H2 H2']. split; by etrans.
Qed.

Ltac registry_leaf :=
  unfold registry_grows; simpl; rewrite ?dom_union_L, ?dom_insert_L; set_solver.

Lemma registry_grows_load_template E configName t :
  preserves registry_grows (load_template E configName t).
Proof. unfold load_template. preserves_walk registry_leaf. Qed.
#[local] Hint Resolve registry_grows_load_template : preserves.

Lemma on_transformed_registry E outputDir0 subDir configName verbose gen callback :
  preserves registry_grows
    (on_transformed E outputDir0 subDir configName verbose gen callback).
Proof. unfold on_transformed, invoke_callback. preserves_walk registry_leaf. Qed.

(** X11.  The Handlebars registry only grows: whatever helper or partial
    name was registered when a run starts is still registered when the
    run ends, however it ends. *)
Theorem registry_is_additive E o config configName callback fs reg :
  (∀ name, is_Some (helpers reg !! name) →
     is_Some (helpers (st_registry (main E o config configName callback fs reg).2) !! name)) ∧
  (∀ name, is_Some (partials_reg reg !! name) →
     is_Some (partials_reg (st_registry (main E o config configName callback fs reg).2)
                !! name)).
Proof.
  destruct (on_transformed_registry E (output_root config) (sub_dir configName config)
              configName (truthy (field (defaults config) "verbose"))
              (run_generator config) callback
              (initial_state E o config configName fs reg)) as [Hh Hp].
  split; intros name Hn; apply elem_of_dom; apply elem_of_dom in Hn; set_solver.
Qed.

(** *** The decorated model *)

#[local] Instance keeps_field_preorder k : PreOrder (keeps_field k).
Proof.
  split.
  - intros s m Hm. eauto.
  - intros s1 s2 s3 H12 H23 m Hm.
    destruct (H12 m Hm) as (m2 & Hm2 & Hg2).
    destruct (H23 m2 Hm2) as (m3 & Hm3 & Hg3).
    exists m3. split; [done | congruence].
Qed.

Lemma keeps_field_set_model_field k k' v :
  k' ≠ k → preserves (keeps_field k) (set_model_field k' v).
Proof.
  intros Hk s m Hm. unfold set_model_field, get_model.
  rewrite bind_unfold, Hm. simpl. eexists. split; [done|].
  by rewrite lookup_insert_ne.
Qed.

Lemma keeps_field_load_template k E configName t :
  preserves (keeps_field k) (load_template E configName t).
Proof. unfold load_template. preserves_walk (intros ? ?; eauto). Qed.

Lemma after_attach_keeps_field k E outputDir0 subDir configName verbose gen callback :
  k ≠ "models" → k ≠ "operations" →
  preserves (keeps_field k)
    (actions ← (register_generator_lambdas verbose gen;;
                register_partials E configName;;
                load_actions E configName);
     clean_output E outputDir0 subDir;;
     generate E outputDir0 subDir configName actions;;
     invoke_callback callback).
Proof.
  intros Hm Ho. unfold invoke_callback.
  repeat first
    [ apply keeps_field_load_template
    | apply keeps_field_set_model_field; congruence
    | preserves_step (intros ? ?; eauto) ].
Qed.

(** X12.  Once the transform has delivered a model, every lambda is a
    field of the model under its name, over the generator of the run
    under [generator], over the fields the transform delivered; apart
    from the scratch fields [models] and [operations] the model stays so
    to the end of the run, however the run ends. *)
Theorem model_decoration E o config configName callback fs reg m k :
  (transformed E o config configName).2 = Some m →
  k ≠ "models" → k ≠ "operations" →
  ∃ m', st_model (main E o config configName callback fs reg).2 = Some m' ∧
        m' !! k = first_with k [lambdas E; {["generator" := run_generator config]}; m].
Proof.
  intros Hm Hk1 Hk2. unfold main, initial_state, on_transformed, prepare. rewrite Hm.
  rewrite bind_assoc, bind_unfold.
  change (attach_generator E (run_generator config)
            (mkState (named configName config) (Some m) fs reg [] []))
    with (Ok tt, mkState (named configName config)
                   (Some (lambdas E ∪ <["generator" := run_generator config]> m))
                   fs reg [] []).
  cbv beta iota.
  match goal with
  | |- context [st_model (?rest ?s1).2] =>
      destruct (after_attach_keeps_field k E (output_root config)
                  (sub_dir configName config) configName
                  (truthy (field (defaults config) "verbose"))
                  (run_generator config) callback Hk1 Hk2 s1 _ eq_refl) as (m' & Hm' & Hg)
  end.
  exists m'. split; [exact Hm'|]. rewrite Hg. simpl.
  rewrite lookup_union. destruct (lambdas E !! k) as [v|]; simpl.
  - by destruct (<["generator" := run_generator config]> m !! k).
  - rewrite (left_id_L None _).
    destruct (decide (k = "generator")) as [->|Hne].
    + by rewrite lookup_insert_eq, lookup_singleton_eq.
    + rewrite lookup_insert_ne, lookup_singleton_ne by done. by destruct (m !! k).
Qed.

Lemma model_decoration_witness :
  ∃ m', st_model (main Bench.env VNull Bench.config "go" true Bench.disk Bench.registry).2
          = Some m' ∧
        m' !! "lower" = Some (VFun "lower").
Proof.
  destruct (model_decoration Bench.env VNull Bench.config "go" true Bench.disk
              Bench.registry Bench.petstore "lower" eq_refl
              ltac:(discriminate) ltac:(discriminate)) as (m' & Hm' & Hk).
  exists m'. split; [exact Hm'|]. rewrite Hk. reflexivity.
Defined.

(** *** The verbose trace with a generator *)

Lemma bind_ext {A B} (m1 m2 : M A) (k1 k2 : A → M B) s :
  (∀ s, m1 s = m2 s) → (∀ a s, k1 a s = k2 a s) → (m1 ≫= k1) s = (m2 ≫= k2) s.
Proof.
  intros Hm Hk. rewrite !bind_unfold, Hm. destruct (m2 s) as [[a|e] s1]; [apply Hk | done].
Qed.

Lemma register_generator_lambdas_verbose gen s :
  truthy gen = true →
  register_generator_lambdas true gen s = register_generator_lambdas false gen s.
Proof.
  intros Hg. unfold register_generator_lambdas. apply bind_ext; [|done].
  intros s0. by destruct gen.
Qed.

(** X13.  With a truthy generator the verbose flag changes nothing but
    the console: the callback of the transform does the same on every
    world whether tracing is on or off. *)
Theorem verbose_only_traces E outputDir0 subDir configName gen callback s :
  truthy gen = true →
  on_transformed E outputDir0 subDir configName true gen callback s =
  on_transformed E outputDir0 subDir configName false gen callback s.
Proof.
  intros Hg. unfold on_transformed, prepare.
  apply bind_ext; [|done]. intros s0.
  apply bind_ext; [done|]. intros [] s1.
  apply bind_ext; [|done]. intros s2. by apply register_generator_lambdas_verbose.
Qed.

Lemma verbose_only_traces_witness :
  on_transformed Bench.env "./out/" "md" "md" true BenchPartials.generator true
    BenchPartials.state =
  on_transformed Bench.env "./out/" "md" "md" false BenchPartials.generator true
    BenchPartials.state.
Proof. apply verbose_only_traces. reflexivity. Defined.

(** ** What is on disk *)

Lemma written_files_snoc w p c :
  written_files (w ++ [(p, c)]) = <[p := c]> (written_files w).
Proof. unfold written_files. by rewrite foldl_app. Qed.

Lemma written_files_later (w : list (path * string)) : ∀ (m : gmap path string) p,
  p ∉ w.*1 → foldl (fun m e => <[e.1 := e.2]> m) m w !! p = m !! p.
Proof.
  induction w as [|[q c] w IH]; intros m p Hp; [done|].
  rewrite fmap_cons in Hp. apply not_elem_of_cons in Hp as [Hne Hp]. simpl.
  rewrite IH by done. by apply lookup_insert_ne.
Qed.

Lemma written_files_last w1 p c w2 :
  p ∉ w2.*1 → written_files (w1 ++ (p, c) :: w2) !! p = Some c.
Proof.
  intros Hp. unfold written_files. rewrite foldl_app. simpl.
  rewrite written_files_later by done. apply lookup_insert_eq.
Qed.

Lemma written_files_elem (w : list (path * string)) p :
  p ∈ w.*1 → is_Some (written_files w !! p).
Proof.
  induction w as [|[q c] w IH] using rev_ind; intros Hp.
  - by apply elem_of_nil in Hp.
  - rewrite written_files_snoc. rewrite fmap_app in Hp.
    destruct (decide (p = q)) as [->|Hne]; [rewrite lookup_insert_eq; eauto|].
    rewrite lookup_insert_ne by done. apply IH.
    apply elem_of_app in Hp as [Hp|Hp]; [done|].
    simpl in Hp. apply list_elem_of_singleton in Hp. done.
Qed.

#[local] Instance writes_kept_preorder : PreOrder writes_kept.
Proof.
  split; [intros s H; exact H|].
  intros s1 s2 s3 H12 H23 H. unfold writes_kept in *. auto.
Qed.

Ltac writes_leaf :=
  first [ intros ?; assumption
        | match goal with
          | H : writeFileSync _ _ _ = Ok _ |- _ =>
              apply writeFileSync_Ok in H as ->; unfold writes_kept; simpl;
              rewrite written_files_snoc; apply insert_mono
          | H : mkdirp _ _ = Ok _ |- _ =>
              apply mkdirp_Ok in H as ->; intros ?; assumption
          end ].

Lemma after_clean_writes_kept E outputDir0 subDir configName actions callback :
  preserves writes_kept
    (generate E outputDir0 subDir configName actions;; invoke_callback callback).
Proof. unfold invoke_callback. preserves_walk writes_leaf. Qed.

Lemma main_writes_kept E o config configName callback fs reg :
  written_files (st_written (main E o config configName callback fs reg).2)
    ⊆ files (st_fs (main E o config configName callback fs reg).2).
Proof.
  unfold main, on_transformed. rewrite bind_unfold.
  pose proof (prepare_written E configName (truthy (field (defaults config) "verbose"))
                (run_generator config) (initial_state E o config configName fs reg)) as Hw.
  unfold unchanged in Hw. simpl in Hw.
  destruct (prepare _ _ _ _ _) as [[actions|e] s1]; simpl in *.
  - destruct (clean_output_Ok E (output_root config) (sub_dir configName config) s1)
      as (s2 & Hclean & Hw2 & _).
    rewrite bind_unfold, Hclean.
    apply (after_clean_writes_kept E (output_root config) (sub_dir configName config)
             configName actions callback s2).
    rewrite Hw2, Hw. apply map_empty_subseteq.
  - rewrite Hw. apply map_empty_subseteq.
Qed.

(** X14.  However a run ends, every path it has written holds the last
    content written to it: a later write of the same path replaces the
    earlier one without complaint, and nothing the run does afterwards
    removes or changes a written file. *)
Theorem last_write_wins E o config configName callback fs reg before p c after :
  st_written (main E o config configName callback fs reg).2 = before ++ (p, c) :: after →
  p ∉ after.*1 →
  files (st_fs (main E o config configName callback fs reg).2) !! p = Some c.
Proof.
  intros Hw Hp.
  pose proof (main_writes_kept E o config configName callback fs reg) as Hk.
  rewrite map_subseteq_spec in Hk. apply Hk. rewrite Hw. by apply written_files_last.
Qed.

Lemma last_write_wins_witness :
  files (st_fs (main Bench.env VNull Bench.config "go" true Bench.disk Bench.registry).2)
    !! ["home"; "out"; "go"; "buy"] = Some "buy".
Proof.
  apply (last_write_wins Bench.env VNull Bench.config "go" true Bench.disk Bench.registry
           [(["home"; "out"; "go"; "README.md"], "README");
            (["home"; "out"; "go"; "LICENSE"], "Apache License");
            (["home"; "out"; "go"; "pets"], "pets");
            (["home"; "out"; "go"; "store"], "store");
            (["home"; "out"; "go"; "Default"], "Default");
            (["home"; "out"; "go"; "getPet"], "getPet");
            (["home"; "out"; "go"; "addPet"], "addPet")]
           ["home"; "out"; "go"; "buy"] "buy" []).
  - vm_compute. reflexivity.
  - apply not_elem_of_nil.
Defined.

(** X15.  Every completed run leaves a [LICENSE] file in the output
    subdirectory, whatever else the run writes. *)
Theorem license_exists E o config configName callback fs reg :
  (main E o config configName callback fs reg).1 = Ok tt →
  is_Some (files (st_fs (main E o config configName callback fs reg).2)
             !! at_path E (out_path (output_root config) (sub_dir configName config)
                             "LICENSE")).
Proof.
  intros Hr.
  destruct (completed_run E o config configName callback fs reg Hr)
    as (actions & s1 & s2 & s3 & s4 & s5 & s6 & s7 & H1 & H2 & H3 & H4 & H5 & H6 & H7 & H8).
  apply write_license_Ok in H6 as (text & fs' & _ & _ & Hs6).
  pose proof (preserves_Ok _ _ _ _ _ (fan_out_frame _ _ _ _) H7) as (l7 & Hw7 & _).
  pose proof (invoke_callback_frame (fun _ => False) callback s7) as (l8 & Hw8 & _).
  rewrite H8 in Hw8. rewrite Hw7, Hs6 in Hw8. simpl in Hw8.
  pose proof (main_writes_kept E o config configName callback fs reg) as Hk.
  rewrite Hw8 in Hk.
  set (lic := at_path E (out_path (output_root config) (sub_dir configName config)
                           "LICENSE")) in *.
  assert (is_Some (written_files (((st_written s5 ++ [(lic, text)]) ++ l7) ++ l8) !! lic))
    as [c Hc].
  { apply written_files_elem. rewrite !fmap_app. set_solver. }
  rewrite map_subseteq_spec in Hk. rewrite (Hk _ _ Hc). eauto.
Qed.

Lemma license_exists_witness :
  is_Some (files (st_fs (main Bench.env VNull Bench.config "go" true
                           Bench.disk Bench.registry).2)
             !! ["home"; "out"; "go"; "LICENSE"]).
Proof.
  apply (license_exists Bench.env VNull Bench.config "go" true Bench.disk Bench.registry).
  reflexivity.
Defined.

(** *** The touch list, twice *)

Section TouchTwice.

Context (E : Env) (outputDir0 subDir : string).

Lemma touch_loop_noop lines s :
  (∀ line, line ∈ lines →
     trim line = "" ∨
     existsSync (at_path E (out_path outputDir0 subDir (trim line))) (st_fs s) = true) →
  for_each lines (touch_file E outputDir0 subDir) s = (Ok tt, s).
Proof.
  induction lines as [|line lines IH]; intros Hall; [done|]. simpl.
  erewrite bind_Ok_eq; [apply IH; intros l Hl; apply Hall; by right|].
  unfold touch_file. destruct (Hall line ltac:(by left)) as [Hb|Hex].
  - by rewrite Hb.
  - destruct (String.eqb (trim line) ""); simpl; [done|].
    erewrite bind_Ok_eq by reflexivity. by rewrite Hex.
Qed.

Lemma touch_loop_exists lines s s' :
  for_each lines (touch_file E outputDir0 subDir) s = (Ok tt, s') →
  ∀ line, line ∈ lines →
    trim line = "" ∨
    existsSync (at_path E (out_path outputDir0 subDir (trim line))) (st_fs s') = true.
Proof.
  intros H line Hin. apply touch_loop_Ok in H as [Hdirs Hfiles].
  destruct (decide (trim line = "")) as [Hb|Hb]; [by left | right].
  set (p := at_path E (out_path outputDir0 subDir (trim line))).
  assert (p ∈ touched E outputDir0 subDir lines) as Hp.
  { unfold touched, touch_names. apply list_elem_of_fmap. exists (trim line).
    split; [done|]. apply list_elem_of_filter. split; [done|].
    apply list_elem_of_fmap. eauto. }
  specialize (Hfiles p). unfold existsSync, is_dir in *. rewrite Hdirs.
  destruct (bool_decide (is_Some (files (st_fs s) !! p))
            || bool_decide (p = [] ∨ p ∈ dirs (st_fs s))) eqn:Hex.
  - rewrite decide_False in Hfiles by (intros [_ ?]; congruence). by rewrite Hfiles.
  - rewrite decide_True in Hfiles by done. rewrite Hfiles.
    rewrite bool_decide_eq_true_2; [done | eauto].
Qed.

Lemma touch_loop_rest lines :
  preserves (unchanged (fun s => (st_config s, st_model s, st_registry s)))
    (for_each lines (touch_file E outputDir0 subDir)).
Proof. preserves_walk reflexivity. Qed.


End TouchTwice.


(** *** The listed directories *)

(** X17.  When the listed directories are made, every directory of
    [config.directories] is there under the output subdirectory, no
    directory has gone, and files and the list of writes are as they
    were; without a list nothing happens. *)
Theorem make_directories_makes E outputDir0 subDir s s' :
  make_directories E outputDir0 subDir s = (Ok tt, s') →
  files (st_fs s') = files (st_fs s) ∧ st_written s' = st_written s ∧
  dirs (st_fs s) ⊆ dirs (st_fs s') ∧
  (directories (st_config s) = None → s' = s) ∧
  ∀ ds directory, directories (st_config s) = Some ds → directory ∈ ds →
    is_dir (at_path E (out_path outputDir0 subDir directory)) (st_fs s') = true.
Proof.
  unfold make_directories, get_config. intros H.
  apply bind_Ok in H as (c & s1 & H1 & H). injection H1 as <- <-.
  destruct (directories (st_config s)) as [ds|].
  - assert (files (st_fs s') = files (st_fs s) ∧ st_written s' = st_written s ∧
            dirs (st_fs s) ⊆ dirs (st_fs s') ∧
            ∀ directory, directory ∈ ds →
              is_dir (at_path E (out_path outputDir0 subDir directory)) (st_fs s') = true)
      as (Hf & Hw & Hd & Hall).
    { revert s H. induction ds as [|d ds IH]; intros s H.
      - injection H as <-. repeat split; try done. intros ? Hin. by apply elem_of_nil in Hin.
      - apply for_each_cons_Ok in H as (s1 & Hd & Hds).
        apply ff_mkdirp_sync_Ok in Hd as (fs1 & Hmk & ->).
        destruct (IH _ Hds) as (Hf & Hw & Hdirs & Hall). simpl in *.
        pose proof (dirs_grow_mkdirp _ _ _ Hmk) as Hg.
        split; [by rewrite Hf; apply mkdirp_Ok in Hmk as ->|].
        split; [done|]. split; [by etrans|].
        intros directory Hin. apply elem_of_cons in Hin as [->|Hin]; [|by apply Hall].
        eapply is_dir_mono; [exact Hdirs | by eapply mkdirp_is_dir]. }
    repeat split; try done. intros ds' directory [= <-]. apply Hall.
  - injection H as <-. repeat split; done.
Qed.

Lemma make_directories_makes_witness :
  is_dir ["home"; "out"; "go"; "docs"]
    (st_fs (make_directories Bench.env "./out/" "go" Bench.state).2) = true.
Proof.
  destruct (make_directories_makes Bench.env "./out/" "go" Bench.state
              (make_directories Bench.env "./out/" "go" Bench.state).2
              ltac:(vm_compute; reflexivity)) as (_ & _ & _ & _ & H).
  apply (H ["docs"] "docs" eq_refl). by left.
Defined.

(** *** The model in a fan-out context *)

(** X18.  The context of a perApi or perPath item never takes [apiInfo]
    from the model: that field comes from the item, the spec defaults or
    the global defaults, or is absent; every other field of the model is
    in the context unless the item has a field of that name. *)
Theorem context_drops_apiInfo global pa model item :
  item_context global pa (toplevel_of model) item !! "apiInfo" =
    first_with "apiInfo" [own_fields item; spec_defaults pa; global] ∧
  ∀ k v, k ≠ "apiInfo" → model !! k = Some v → own_fields item !! k = None →
         item_context global pa (toplevel_of model) item !! k = Some v.
Proof.
  split.
  - rewrite item_context_lookup. simpl. unfold toplevel_of, clone. simpl.
    by rewrite lookup_delete_eq.
  - intros k v Hk Hm Hi. rewrite item_context_lookup. simpl. rewrite Hi.
    unfold toplevel_of, clone. simpl. by rewrite lookup_delete_ne, Hm.
Qed.

(** *** Outside the output subdirectory *)

#[local] Hint Resolve frame_rimraf : preserves.

Lemma on_transformed_frame E outputDir0 subDir configName verbose gen callback :
  preserves (frame (inside (at_path E (path_join [outputDir0; subDir]))))
    (on_transformed E outputDir0 subDir configName verbose gen callback).
Proof. unfold on_transformed, invoke_callback. preserves_walk frame_leaf. Qed.



(** *** A run with nothing to render *)

Lemma config_kept_fields s s' :
  config_kept s s' →
  transformations (st_config s) = [] →
  transformations (st_config s') = [] ∧ touch (st_config s') = touch (st_config s) ∧
  perApi (st_config s') = perApi (st_config s) ∧
  perPath (st_config s') = perPath (st_config s) ∧
  perModel (st_config s') = perModel (st_config s) ∧
  perOperation (st_config s') = perOperation (st_config s).
Proof.
  unfold config_kept, config_rel. intros (_&_&_&_&_&_&Ht&_&Ha&Hp&Hm&Ho&HF) Hnil.
  rewrite Hnil in HF. apply Forall2_nil_inv_l in HF. done.
Qed.

Lemma fan_out_none E outputDir0 subDir configName s :
  perApi (st_config s) = None → perPath (st_config s) = None →
  perModel (st_config s) = None → perOperation (st_config s) = None →
  fan_out E outputDir0 subDir configName s = (Ok tt, s).
Proof.
  intros Ha Hp Hm Ho.
  unfold fan_out, perApi_pass, perPath_pass, perModel_pass, perOperation_pass, get_config.
  erewrite bind_Ok_eq by (erewrite bind_Ok_eq by reflexivity; simpl; by rewrite Ha).
  erewrite bind_Ok_eq by (erewrite bind_Ok_eq by reflexivity; simpl; by rewrite Hp).
  erewrite bind_Ok_eq by (erewrite bind_Ok_eq by reflexivity; simpl; by rewrite Hm).
  erewrite bind_Ok_eq by reflexivity. simpl. by rewrite Ho.
Qed.

(** X20.  A configuration without transformations, without a touch list
    and without fan-out specs gives a run that, when it completes, has
    written the [LICENSE] file and nothing else. *)
Theorem bare_run_writes_license E o config configName callback fs reg :
  transformations config = [] → truthy_str (touch config) = false →
  perApi config = None → perPath config = None →
  perModel config = None → perOperation config = None →
  (main E o config configName callback fs reg).1 = Ok tt →
  ∃ text,
    st_written (main E o config configName callback fs reg).2 =
      [(at_path E (out_path (output_root config) (sub_dir configName config) "LICENSE"),
        text)].
Proof.
  intros Htx Htouch Ha Hp Hm Ho Hr.
  destruct (completed_run E o config configName callback fs reg Hr)
    as (actions & s1 & s2 & s3 & s4 & s5 & s6 & s7 & H1 & H2 & H3 & H4 & H5 & H6 & H7 & H8).
  pose proof (preserves_Ok _ _ _ _ _ (prepare_config _ _ _ _) H1) as C1.
  pose proof (preserves_Ok _ _ _ _ _ (clean_output_config _ _ _) H2) as C2.
  pose proof (preserves_Ok _ _ _ _ _ (make_directories_config _ _ _) H3) as C3.
  assert (config_kept (initial_state E o config configName fs reg) s3) as C
    by (etrans; [exact C1|]; etrans; [exact C2 | exact C3]).
  (* nothing written up to the whole-output pass, which has no action *)
  pose proof (preserves_Ok _ _ _ _ _ (prepare_written _ _ _ _) H1) as W1.
  destruct (clean_output_Ok E (output_root config) (sub_dir configName config) s1)
    as (s2' & H2' & W2 & _).
  rewrite H2 in H2'. injection H2' as <-.
  apply make_directories_makes in H3 as (_ & W3 & _).
  apply load_actions_Ok_actions in H1 as Hact.
  destruct (config_kept_fields _ _ C1 Htx) as (Ht1 & _).
  rewrite Ht1 in Hact. subst actions. injection H4 as <-.
  destruct (config_kept_fields _ _ C Htx) as (_ & Ht3 & Ha3 & Hp3 & Hm3 & Ho3).
  simpl in Ht3, Ha3, Hp3, Hm3, Ho3.
  (* no touch list *)
  unfold touch_files, get_config in H5.
  apply bind_Ok in H5 as (c & s0 & Hc & H5). injection Hc as <- <-.
  rewrite Ht3, Htouch in H5. injection H5 as <-.
  (* the license *)
  apply write_license_Ok in H6 as (text & fs' & _ & _ & ->).
  (* no fan-out *)
  rewrite fan_out_none in H7 by (simpl; congruence). injection H7 as <-.
  exists text. rewrite <- H8. unfold invoke_callback.
  unfold unchanged in W1. simpl in W1.
  destruct callback; simpl; rewrite W3, W2, W1; reflexivity.
Qed.

Lemma bare_run_writes_license_witness :
  ∃ text,
    st_written (main Bench.env VNull BenchBare.config "go" true Bench.disk Bench.registry).2
      = [(["home"; "out"; "go"; "LICENSE"], text)].
Proof.
  destruct (bare_run_writes_license Bench.env VNull BenchBare.config "go" true Bench.disk
              Bench.registry eq_refl eq_refl eq_refl eq_refl eq_refl eq_refl eq_refl)
    as [text H].
  exists text. exact H.
Defined.

Lemma context_drops_apiInfo_witness :
  item_context (defaults Bench.config) Bench.api_spec (toplevel_of Bench.petstore)
    Bench.store !! "x" = Some (VStr "top") ∧
  item_context (defaults Bench.config) Bench.api_spec (toplevel_of Bench.petstore)
    Bench.store !! "apiInfo" = None.
Proof.
  destruct (context_drops_apiInfo (defaults Bench.config) Bench.api_spec Bench.petstore
              Bench.store) as [Ha Hk].
  split.
  - apply Hk; [discriminate | reflexivity | reflexivity].
  - rewrite Ha. reflexivity.
Defined.

Lemma registry_is_additive_witness :
  is_Some (helpers (st_registry
                      (main Bench.env VNull Bench.config "go" true Bench.disk
                         (mkRegistry {["old" := VFun "old"]} ∅)).2) !! "old").
Proof.
  apply (proj1 (registry_is_additive Bench.env VNull Bench.config "go" true Bench.disk
                  (mkRegistry {["old" := VFun "old"]} ∅))).
  vm_compute. eauto.
Defined.
